(** * video.js menu item: selection state, rendering and key routing

    A shallow embedding of [src/js/menu/menu-item.js].  The class
    [MenuItem] extends [ClickableComponent]; it renders an [<li>], keeps a
    selected flag in step with the element's class, [aria-checked] and
    control text, and filters the keys the enclosing menu reserves.

    Layout of the development:
    - [JsString]: the string primitives the source calls ([includes],
      [split], [trim]);
    - [Dom]: a small document model (nodes, attributes, class tokens,
      listeners, markup serialisation);
    - [Base]: the collaborators the class builds on (element factory and
      [ClickableComponent]);
    - [Options], [MenuItem]: the class itself, method by method;
    - [Shape]: the vocabulary of the properties and sample items;
    - [Facets]: the vocabulary of the further properties;
    - the properties: facts about strings, the document model and the
      class, then the claims;
    - further properties: idempotence, frame and agreement of the
      facets, [handleClick], the primary part of a label. *)

From Stdlib Require Import String Ascii List Bool Arith ZArith Lia.
From Stdlib Require Import DecimalString.
Import ListNotations.
Open Scope string_scope.
Open Scope bool_scope.
Set Warnings "-register-all".

(** ** JavaScript string primitives

    Strings are sequences of code units; the model covers code units
    below 256, one [ascii] each. *)
Module JsString.

(** [s.startsWith(pat)]. *)
Fixpoint startsWith (pat s : string) : bool :=
  match pat, s with
  | EmptyString, _ => true
  | String _ _, EmptyString => false
  | String a pat', String b s' => Ascii.eqb a b && startsWith pat' s'
  end.

(** [s.includes(pat)]: [pat] occurs at some position of [s]. *)
Fixpoint includes (pat s : string) : bool :=
  startsWith pat s ||
  match s with
  | EmptyString => false
  | String _ s' => includes pat s'
  end.

(** [s.split(sep)] for a non-empty separator, scanning left to right.
    [skip] counts the code units of a separator just matched that are
    still to be passed over; [cur] is the segment being collected. *)
Fixpoint split_from (sep : string) (skip : nat) (cur s : string) : list string :=
  match s with
  | EmptyString => [cur]
  | String c s' =>
      match skip with
      | S k => split_from sep k cur s'
      | O =>
          if startsWith sep s
          then cur :: split_from sep (String.length sep - 1) EmptyString s'
          else split_from sep O (cur ++ String c EmptyString) s'
      end
  end.

Definition split (sep s : string) : list string := split_from sep 0 EmptyString s.

(** Code units [trim] strips: TAB, LF, VT, FF, CR, SP and NBSP. *)
Definition isWhiteSpace (c : ascii) : bool :=
  existsb (Nat.eqb (nat_of_ascii c)) [9; 10; 11; 12; 13; 32; 160].

Fixpoint trimStart (s : string) : string :=
  match s with
  | EmptyString => EmptyString
  | String c s' => if isWhiteSpace c then trimStart s' else s
  end.

Fixpoint trimEnd (s : string) : string :=
  match s with
  | EmptyString => EmptyString
  | String c s' =>
      match trimEnd s' with
      | EmptyString => if isWhiteSpace c then EmptyString else String c EmptyString
      | t => String c t
      end
  end.

(** [s.trim()]. *)
Definition trim (s : string) : string := trimEnd (trimStart s).

(** Every code unit of [s] is white space. *)
Fixpoint allWhiteSpace (s : string) : bool :=
  match s with
  | EmptyString => true
  | String c s' => isWhiteSpace c && allWhiteSpace s'
  end.

End JsString.

(** ** Document model *)
Module Dom.

(** The double quote that delimits attribute values in markup. *)
Definition dquote : string := String (ascii_of_nat 34) EmptyString.

(** An event object: its type and, when one was attached, the [data]
    object as a list of its own properties. *)
Record Event := mkEvent {
  type : string;
  data : option (list (string * string))
}.

(** The part of an event object that handlers change while it is being
    dispatched: the flags that [stopPropagation()] and [preventDefault()]
    set.  While the first is unset the event goes on to the listeners of
    the ancestors. *)
Record EventFlags := mkFlags {
  propagationStopped : bool;
  defaultPrevented : bool
}.

(** The flags of an event as the first listener receives it. *)
Definition freshFlags : EventFlags := mkFlags false false.

(** What a registered listener does when it runs.  Both listeners of the
    source have the body [window.dispatchEvent(chapterEvent)]. *)
Inductive Listener :=
| DispatchOnWindow (ev : Event).

(** A node is a text node or an element with its attributes (in the order
    they were set), the listeners registered on it and its children. *)
Inductive Node :=
| Text (content : string)
| Element (tagName : string)
          (attributes : list (string * string))
          (listeners : list (string * Listener))
          (childNodes : list Node).

Definition isElement (n : Node) : bool :=
  match n with
  | Text _ => false
  | Element _ _ _ _ => true
  end.

(** *** Markup serialisation ([outerHTML]) *)

Definition escapeChar (inAttribute : bool) (c : ascii) : string :=
  match nat_of_ascii c with
  | 38 => "&amp;"
  | 160 => "&nbsp;"
  | 34 => if inAttribute then "&quot;" else String c EmptyString
  | 60 => if inAttribute then String c EmptyString else "&lt;"
  | 62 => if inAttribute then String c EmptyString else "&gt;"
  | _ => String c EmptyString
  end.

Fixpoint escape (inAttribute : bool) (s : string) : string :=
  match s with
  | EmptyString => EmptyString
  | String c s' => escapeChar inAttribute c ++ escape inAttribute s'
  end.

Definition serializeAttribute (a : string * string) : string :=
  " " ++ fst a ++ "=" ++ dquote ++ escape true (snd a) ++ dquote.

Definition openTag (tag : string) (attrs : list (string * string)) : string :=
  "<" ++ tag ++ String.concat "" (map serializeAttribute attrs) ++ ">".

Definition closeTag (tag : string) : string := "</" ++ tag ++ ">".

Fixpoint outerHTML (n : Node) : string :=
  match n with
  | Text s => escape false s
  | Element tag attrs _ kids =>
      openTag tag attrs
      ++ (fix inner (ks : list Node) : string :=
            match ks with
            | [] => EmptyString
            | k :: ks' => outerHTML k ++ inner ks'
            end) kids
      ++ closeTag tag
  end.

(** The markup of a list of children, one after the other. *)
Fixpoint innerHTML (ks : list Node) : string :=
  match ks with
  | [] => EmptyString
  | k :: ks' => outerHTML k ++ innerHTML ks'
  end.

(** *** Attributes

    Attribute lists and the property maps of the element factory are
    association lists that keep insertion order, as object keys do. *)

Fixpoint lookup {V} (name : string) (attrs : list (string * V)) : option V :=
  match attrs with
  | [] => None
  | (k, v) :: rest => if k =? name then Some v else lookup name rest
  end.

(** Overwrite in place when the attribute exists, append otherwise. *)
Fixpoint store {V} (name : string) (value : V) (attrs : list (string * V))
  : list (string * V) :=
  match attrs with
  | [] => [(name, value)]
  | (k, v) :: rest =>
      if k =? name then (k, value) :: rest else (k, v) :: store name value rest
  end.

Definition getAttribute (name : string) (n : Node) : option string :=
  match n with
  | Text _ => None
  | Element _ attrs _ _ => lookup name attrs
  end.

Definition setAttribute (name value : string) (n : Node) : Node :=
  match n with
  | Text _ => n
  | Element tag attrs ls kids => Element tag (store name value attrs) ls kids
  end.

(** *** Class tokens ([classList]) *)

(** Split on ASCII white space, dropping empty tokens. *)
Fixpoint tokens_from (cur s : string) : list string :=
  match s with
  | EmptyString => match cur with EmptyString => [] | _ => [cur] end
  | String c s' =>
      if JsString.isWhiteSpace c
      then match cur with
           | EmptyString => tokens_from EmptyString s'
           | _ => cur :: tokens_from EmptyString s'
           end
      else tokens_from (cur ++ String c EmptyString) s'
  end.

Definition tokens (s : string) : list string := tokens_from EmptyString s.

Fixpoint dedup (l : list string) : list string :=
  match l with
  | [] => []
  | x :: rest => x :: filter (fun y => negb (y =? x)) (dedup rest)
  end.

(** The token set of the [class] attribute, in order, without repeats. *)
Definition classList (n : Node) : list string :=
  match getAttribute "class" n with
  | Some v => dedup (tokens v)
  | None => []
  end.

Definition hasClass (c : string) (n : Node) : bool :=
  existsb (String.eqb c) (classList n).

(** [el.classList.add(c)]: the attribute becomes the serialised token
    set, with [c] at the end when it was not a member. *)
Definition addClass (c : string) (n : Node) : Node :=
  let ts := classList n in
  setAttribute "class"
    (String.concat " " (if existsb (String.eqb c) ts then ts else ts ++ [c])) n.

(** [el.classList.remove(c)]: nothing to update on an element that has
    no [class] attribute. *)
Definition removeClass (c : string) (n : Node) : Node :=
  match getAttribute "class" n with
  | None => n
  | Some _ =>
      setAttribute "class"
        (String.concat " " (filter (fun t => negb (t =? c)) (classList n))) n
  end.

Fixpoint noWhiteSpace (s : string) : bool :=
  match s with
  | EmptyString => true
  | String c s' => negb (JsString.isWhiteSpace c) && noWhiteSpace s'
  end.

(** A well-formed class token: not empty, no white space. *)
Definition isToken (t : string) : bool :=
  match t with
  | EmptyString => false
  | _ => noWhiteSpace t
  end.

(** *** Children *)

Definition childNodes_of (n : Node) : list Node :=
  match n with
  | Text _ => []
  | Element _ _ _ kids => kids
  end.

Definition withChildren (kids : list Node) (n : Node) : Node :=
  match n with
  | Text _ => n
  | Element tag attrs ls _ => Element tag attrs ls kids
  end.

(** [parent.prepend(child)] and [parent.appendChild(child)]. *)
Definition prepend (child parent : Node) : Node :=
  withChildren (child :: childNodes_of parent) parent.

Definition appendChild (child parent : Node) : Node :=
  withChildren (childNodes_of parent ++ [child]) parent.

Fixpoint replaceNth {A} (i : nat) (x : A) (l : list A) : list A :=
  match l, i with
  | [], _ => []
  | _ :: rest, O => x :: rest
  | y :: rest, S j => y :: replaceNth j x rest
  end.

(** [parent.replaceChild(new, old)], [old] being the child at position [i]. *)
Definition replaceChild (new : Node) (i : nat) (parent : Node) : Node :=
  withChildren (replaceNth i new (childNodes_of parent)) parent.

Fixpoint findIndex {A} (p : A -> bool) (l : list A) : option nat :=
  match l with
  | [] => None
  | x :: rest => if p x then Some 0 else option_map S (findIndex p rest)
  end.

(** [parent.querySelector('.' + c)], over the children of [parent]: the
    elements the class renders never nest a match deeper, which is the
    case the model is meant for (the element as the constructor has it
    built, without properties of the caller's).  [None] is the [null] of
    a failed lookup. *)
Definition querySelectorClass (c : string) (parent : Node) : option nat :=
  findIndex (hasClass c) (childNodes_of parent).

(** [el.textContent = text]: the children become one text node, or none
    for the empty string. *)
Definition setTextContent (text : string) (n : Node) : Node :=
  withChildren (match text with EmptyString => [] | _ => [Text text] end) n.

Fixpoint textContent (n : Node) : string :=
  match n with
  | Text s => s
  | Element _ _ _ kids =>
      (fix inner (ks : list Node) : string :=
         match ks with
         | [] => EmptyString
         | k :: ks' => textContent k ++ inner ks'
         end) kids
  end.

(** *** Listeners *)

Definition addEventListener (evType : string) (l : Listener) (n : Node) : Node :=
  match n with
  | Text _ => n
  | Element tag attrs ls kids => Element tag attrs (ls ++ [(evType, l)]) kids
  end.

Definition listeners_of (n : Node) : list (string * Listener) :=
  match n with
  | Text _ => []
  | Element _ _ ls _ => ls
  end.

(** Running one listener: the events it hands to [window.dispatchEvent],
    in order.  The dispatch is synchronous, so they are all delivered by
    the time the listener returns. *)
Definition runListener (l : Listener) : list Event :=
  match l with
  | DispatchOnWindow ev => [ev]
  end.

(** An event of type [evType] fired at [n]: every listener registered for
    that type runs, in registration order. *)
Definition fire (evType : string) (n : Node) : list Event :=
  flat_map (fun e => if fst e =? evType then runListener (snd e) else [])
           (listeners_of n).

End Dom.

(** ** Collaborators of the class *)

(** The player a component is attached to, as far as the menu item uses it:
    the lookup behind [this.localize(text)]. *)
Class Player := { localize : string -> string }.

(** The keyboard collaborators: [MenuKeys] of [menu-keys.js], the matcher
    [keycode.isEventKey(event, key)], and what the base class's
    [handleKeyDown] does to the flags of an event it is handed (the
    "generic key handling" of the base, which is not among the
    sources). *)
Class KeyTable := {
  KeyboardEvent : Type;
  isEventKey : KeyboardEvent -> string -> bool;
  MenuKeys : list string;
  superHandleKeyDown : KeyboardEvent -> Dom.EventFlags -> Dom.EventFlags
}.

Module Base.
Import Dom.

(** A property value handed to the element factory. *)
Inductive PropValue :=
| PStr (s : string)
| PNum (z : Z).

Definition Props := list (string * PropValue).
Definition Attrs := list (string * string).

(** Modelled from the spec: [assign(target, source)] of [utils/obj],
    which is not among the sources (the "option merging" of the base):
    the keys of [source] overwrite or extend those of [target]. *)
Definition assign {V} (target source : list (string * V)) : list (string * V) :=
  fold_left (fun acc kv => store (fst kv) (snd kv) acc) source target.

Definition numberToString (z : Z) : string := NilEmpty.string_of_int (Z.to_int z).

Definition propText (v : PropValue) : string :=
  match v with
  | PStr s => s
  | PNum z => numberToString z
  end.

(** Modelled from the spec: the element factory [createEl] of
    [utils/dom.js], which is not among the sources ("build a generic
    element with a tag, property map, attribute map").  The properties the
    menu item passes reflect into markup as follows: [className] is the
    [class] attribute, [tabIndex] the [tabindex] attribute, [style] the
    [style] attribute, [textContent] the text child.  These four are the
    properties the class itself passes, and the model is meant for them:
    a map with other keys is taken as if it had only these. *)
Definition setProperty (el : Node) (p : string * PropValue) : Node :=
  let (name, v) := p in
  if name =? "className" then setAttribute "class" (propText v) el
  else if name =? "tabIndex" then setAttribute "tabindex" (propText v) el
  else if name =? "style" then setAttribute "style" (propText v) el
  else if name =? "textContent" then setTextContent (propText v) el
  else el.

(** Modelled from the spec: [createEl(tagName, properties, attributes)]
    of [utils/dom.js]: a fresh element, then the properties, then the
    attributes, each in the order of its map. *)
Definition createEl (tagName : string) (properties : Props) (attributes : Attrs) : Node :=
  let el := Element tagName [] [] [] in
  let el := fold_left setProperty properties el in
  fold_left (fun e a => setAttribute (fst a) (snd a) e) attributes el.

(** What a [createEl] method leaves behind: the element it returns and the
    position, among that element's children, of the control-text element
    that [this.controlTextEl_] refers to. *)
Record Rendered := mkRendered {
  element : Node;
  controlTextIndex : nat
}.

Module ClickableComponent.

(** Modelled from the spec: [ClickableComponent] of
    [clickable-component.js], which is not among the sources (the "base
    interactive-control capability" with its "accessible-text
    getter/setter").  Its [buildCSSClass] and [createEl]: the element gets
    the caller's properties over the defaults, the role [button] unless
    the caller gives one, the icon placeholder that [MenuItem.createEl]
    looks up and swaps for its text, and last the control-text element. *)
Definition buildCSSClass : string := "vjs-control vjs-button ".

(** Modelled from the spec: the "generic icon placeholder" of the base
    element, the node [el.querySelector('.vjs-icon-placeholder')] finds. *)
Definition iconPlaceholder : Node :=
  Element "span" [("aria-hidden", "true"); ("class", "vjs-icon-placeholder")] [] [].

(** Modelled from the spec: the element that holds the accessible
    control text, empty until [controlText] is first called. *)
Definition createControlTextEl : Node :=
  createEl "span" [("className", PStr "vjs-control-text")] [("aria-live", "polite")].

(** Modelled from the spec: [ClickableComponent.createEl], as described
    above; it also sets [this.controlTextEl_] to the element it appends
    last. *)
Definition createEl (tag : string) (props : Props) (attributes : Attrs) : Rendered :=
  let props := assign [("className", PStr buildCSSClass); ("tabIndex", PNum 0)] props in
  let attributes := assign [("role", "button")] attributes in
  let el := Base.createEl tag props attributes in
  let el := appendChild iconPlaceholder el in
  let el := appendChild createControlTextEl el in
  {| element := el; controlTextIndex := List.length (childNodes_of el) - 1 |}.

End ClickableComponent.
End Base.

(** ** The menu item *)

Module Options.
(** The options the constructor reads. *)
Record t := mk {
  label : string;
  selectable : bool;
  multiSelectable : bool;
  selected : bool
}.
End Options.

Module MenuItem.
Import Dom Base.

(** The instance: the fields the class assigns and the ones it inherits
    and uses.  [controlTextEl_] is a reference to a child of [el_]; the
    model keeps that child's position, so that writing through the
    reference changes the markup of [el_]. *)
Record t := mk {
  options_ : Options.t;
  el_ : Node;
  controlTextEl_ : nat;
  controlText_ : option string;
  nonIconControl : bool;
  selectable : bool;
  isSelected_ : bool;
  multiSelectable : bool
}.

Definition with_el (el : Node) (this : t) : t :=
  mk (options_ this) el (controlTextEl_ this) (controlText_ this)
     (nonIconControl this) (selectable this) (isSelected_ this) (multiSelectable this).

Definition with_controlText (text : option string) (this : t) : t :=
  mk (options_ this) (el_ this) (controlTextEl_ this) text
     (nonIconControl this) (selectable this) (isSelected_ this) (multiSelectable this).

Definition with_isSelected (b : bool) (this : t) : t :=
  mk (options_ this) (el_ this) (controlTextEl_ this) (controlText_ this)
     (nonIconControl this) (selectable this) b (multiSelectable this).

(** The node [this.controlTextEl_] refers to. *)
Definition controlTextEl (this : t) : option Node :=
  nth_error (childNodes_of (el_ this)) (controlTextEl_ this).

Section Methods.
Context {player : Player} {keys : KeyTable}.

(** *** Inherited methods *)

(** Modelled from the spec: [addClass] and [removeClass] of [Component]
    ("CSS class add/remove"), acting on [this.el_]. *)
Definition addClass (c : string) (this : t) : t :=
  with_el (Dom.addClass c (el_ this)) this.

Definition removeClass (c : string) (this : t) : t :=
  with_el (Dom.removeClass c (el_ this)) this.

(** Modelled from the spec: the setter [controlText(text)] of
    [ClickableComponent] (the "accessible-text getter/setter"): it records
    [text] and writes its localisation into the control-text element. *)
Definition controlText (text : string) (this : t) : t :=
  let this := with_controlText (Some text) this in
  match controlTextEl this with
  | Some node =>
      with_el (replaceChild (setTextContent (localize text) node)
                            (controlTextEl_ this) (el_ this)) this
  | None => this
  end.

(** *** [createEl(type, props, attrs)] *)

Definition chapterText (label : string) : string :=
  hd EmptyString (JsString.split "||" label).

Definition chapterStartTime (label : string) : option string :=
  nth_error (JsString.split "||" label) 1.

Definition isChapterNameEmpty (label : string) : bool :=
  JsString.trim (chapterText label) =? "".

(** Truthiness of a value that is a string or [undefined]. *)
Definition truthy (v : option string) : bool :=
  match v with
  | Some s => negb (s =? "")
  | None => false
  end.

Definition chapterEvent (label : string) : Event :=
  {| type := "chapterEditEvent"; data := Some [("chapter", chapterText label)] |}.

Definition chapterEditButtonEl : Node :=
  Base.createEl "span" [("className", PStr "vjs-menu-item-chapter-edit-button")] [].

Definition menuItemText (label : string) : Node :=
  Base.createEl "span"
    [("className", PStr "vjs-menu-item-text");
     ("textContent", PStr (localize (chapterText label)))] [].

Definition chapterStartTimeEl (startTime : string) : Node :=
  Base.createEl "span"
    [("className", PStr "vjs-menu-item-chapter-starttime");
     ("textContent", PStr (localize startTime))] [].

(** [None] stands for the [TypeError] of [replaceChild] on a [null]
    lookup (lemma [createEl_returns] shows it does not arise). *)
Definition createEl (options : Options.t) (props : Props) (attrs : Attrs)
  : option Rendered :=
  let r := ClickableComponent.createEl "li"
             (assign [("className", PStr "vjs-menu-item"); ("tabIndex", PNum (-1))] props)
             attrs in
  let label := Options.label options in
  if isChapterNameEmpty label then
    Some (ClickableComponent.createEl "li" [("style", PStr "display: none;")] [])
  else
    let button := addEventListener "click" (DispatchOnWindow (chapterEvent label))
                    chapterEditButtonEl in
    let button := addEventListener "touchstart" (DispatchOnWindow (chapterEvent label))
                    button in
    let el := prepend button (element r) in
    let controlTextIndex := S (controlTextIndex r) in
    match querySelectorClass "vjs-icon-placeholder" el with
    | None => None
    | Some i =>
        let el := replaceChild (menuItemText label) i el in
        let el := match chapterStartTime label with
                  | Some startTime =>
                      if truthy (Some startTime)
                      then appendChild (chapterStartTimeEl startTime) el
                      else el
                  | None => el
                  end in
        Some {| element := el; controlTextIndex := controlTextIndex |}
    end.

(** *** [selected(selected)] *)

Definition selected (wanted : bool) (this : t) : t :=
  if selectable this then
    if wanted && negb (JsString.includes "-chapter-" (outerHTML (el_ this))) then
      let this := addClass "vjs-selected" this in
      let this := with_el (setAttribute "aria-checked" "true" (el_ this)) this in
      let this := controlText ", selected" this in
      with_isSelected true this
    else
      let this := removeClass "vjs-selected" this in
      let this := with_el (setAttribute "aria-checked" "false" (el_ this)) this in
      let this := controlText "" this in
      with_isSelected false this
  else this.

(** *** [constructor(player, options)]

    [super(player, options)] stores the options and sets [this.el_] to
    what [this.createEl()] returns. *)
Definition constructor (options : Options.t) : option t :=
  match createEl options [] [] with
  | None => None
  | Some r =>
      let this := mk options (element r) (controlTextIndex r) None true
                     (Options.selectable options)
                     (Options.selected options || false)
                     (Options.multiSelectable options) in
      let this := selected (isSelected_ this) this in
      Some (if selectable this then
              if multiSelectable this
              then with_el (setAttribute "role" "menuitemcheckbox" (el_ this)) this
              else with_el (setAttribute "role" "menuitemradio" (el_ this)) this
            else with_el (setAttribute "role" "menuitem" (el_ this)) this)
  end.

(** *** [handleClick(event)] *)
Definition handleClick (this : t) : t := selected true this.

(** *** [handleKeyDown(event)]

    The event object is shared with every other listener of the
    dispatch, so the method is run on the flags of the event as it finds
    them and returns them as it leaves them, together with the calls it
    made to [super.handleKeyDown], in order.  The method itself calls
    neither [stopPropagation()] nor [preventDefault()]: the flags change
    only through the base handler. *)
Inductive SuperCall :=
| SuperHandleKeyDown (event : KeyboardEvent).

Definition handleKeyDown (event : KeyboardEvent) (flags : EventFlags) (this : t)
  : list SuperCall * EventFlags :=
  if negb (existsb (fun key => isEventKey event key) MenuKeys)
  then ([SuperHandleKeyDown event], superHandleKeyDown event flags)
  else ([], flags).

(** A run of [selected] calls, first to last. *)
Definition selectedCalls (calls : list bool) (this : t) : t :=
  fold_left (fun item wanted => selected wanted item) calls this.

End Methods.
End MenuItem.

(** ** Vocabulary of the properties *)
Module Shape.
Import Dom Base MenuItem.

(** The chapter marker [selected] searches the markup for, and the
    selection class. *)
Definition marker : string := "-chapter-".
Definition selectedClass : string := "vjs-selected".

(** The item's markup carries the chapter marker. *)
Definition isChapterVariant (el : Node) : bool :=
  JsString.includes marker (outerHTML el).

(** A [<span>] with one class and a text. *)
Definition span (className text : string) : Node :=
  Element "span" [("class", className)] []
          (match text with EmptyString => [] | _ => [Text text] end).

(** The control-text element every clickable component ends with. *)
Definition controlTextSpan : Node :=
  Element "span" [("class", "vjs-control-text"); ("aria-live", "polite")] [] [].

(** The hidden placeholder row of an item without a name. *)
Definition placeholderRow : Node :=
  Element "li"
    [("class", "vjs-control vjs-button "); ("tabindex", "0");
     ("style", "display: none;"); ("role", "button")] []
    [ClickableComponent.iconPlaceholder; controlTextSpan].

(** The role the constructor's branches assign. *)
Definition roleOf (options : Options.t) : string :=
  if Options.selectable options
  then if Options.multiSelectable options then "menuitemcheckbox" else "menuitemradio"
  else "menuitem".

(** An instance can be used as a component: its element is an element and
    [controlTextEl_] refers to an element among its children. *)
Definition wellFormed (item : MenuItem.t) : bool :=
  isElement (el_ item)
  && match controlTextEl item with
     | Some node => isElement node
     | None => false
     end.

(** The text the control-text element shows. *)
Definition shownControlText (item : MenuItem.t) : option string :=
  option_map textContent (controlTextEl item).

Section Shapes.
Context {player : Player}.

(** The edit affordance with its two listeners. *)
Definition editButton (label : string) : Node :=
  Element "span" [("class", "vjs-menu-item-chapter-edit-button")]
          [("click", DispatchOnWindow (chapterEvent label));
           ("touchstart", DispatchOnWindow (chapterEvent label))] [].

(** The secondary annotation, present for a non-empty second segment. *)
Definition secondarySpans (label : string) : list Node :=
  match chapterStartTime label with
  | Some startTime =>
      if truthy (Some startTime)
      then [span "vjs-menu-item-chapter-starttime" (localize startTime)]
      else []
  | None => []
  end.

(** The row of an item with a name. *)
Definition namedRow (label : string) : Node :=
  Element "li"
    [("class", "vjs-menu-item"); ("tabindex", "-1"); ("role", "button")] []
    ([editButton label;
      span "vjs-menu-item-text" (localize (chapterText label));
      controlTextSpan] ++ secondarySpans label).

(** An item over its lifetime: constructed, then any run of [selected]
    calls. *)
Definition lifetime (options : Options.t) (calls : list bool) : option MenuItem.t :=
  option_map (selectedCalls calls) (constructor options).

(** The instance as [super(player, options)] and the three assignments
    of the constructor leave it, before [this.selected(this.isSelected_)]. *)
Definition afterSuper (options : Options.t) (r : Rendered) : MenuItem.t :=
  MenuItem.mk options (element r) (controlTextIndex r) None true
              (Options.selectable options)
              (Options.selected options || false)
              (Options.multiSelectable options).

(** The element still starts with the edit affordance, and the control
    text sits behind it. *)
Definition keepsEditButton (label : string) (item : MenuItem.t) : Prop :=
  wellFormed item = true
  /\ hd_error (childNodes_of (el_ item)) = Some (editButton label)
  /\ 1 <= controlTextEl_ item.

(** The element does not look selected. *)
Definition looksUnselected (item : MenuItem.t) : Prop :=
  hasClass selectedClass (el_ item) = false
  /\ getAttribute "aria-checked" (el_ item) <> Some "true".

End Shapes.

(** A player without a language table: texts are shown as given. *)
Definition plainPlayer : Player := {| localize := fun text => text |}.

(** Modelled from the spec: the keyboard collaborators of a player's
    menus, events named by their key.  The base handler, a "generic
    keydown-to-click mapping", stops the propagation of the events it is
    handed and prevents the default action of Enter and Space, which it
    turns into a click. *)
Definition menuKeyTable : KeyTable :=
  {| KeyboardEvent := string;
     isEventKey := fun event key => event =? key;
     MenuKeys := ["Tab"; "Esc"; "Up"; "Down"; "Right"; "Left"];
     superHandleKeyDown := fun event flags =>
       mkFlags true
               (defaultPrevented flags || (event =? "Enter") || (event =? "Space")) |}.

(** Sample configurations. *)
Definition introLabel : string := "Intro||00:00:10".
Definition namelessLabel : string := "  ||00:00:10".

(** A chapter entry, selectable as a radio item, configured selected. *)
Definition introOptions : Options.t := Options.mk introLabel true false true.

(** The same entry outside any selection, configured selected. *)
Definition fixedIntroOptions : Options.t := Options.mk introLabel false false true.

(** A selectable entry whose label has no name. *)
Definition namelessOptions : Options.t := Options.mk namelessLabel true false false.

(** An entry that is multi-selectable on paper but not selectable. *)
Definition inertMultiOptions : Options.t := Options.mk introLabel false true false.

Definition blankItem (options : Options.t) : MenuItem.t :=
  MenuItem.mk options (Text "") 0 None false false false false.

(** The items the constructor builds from the samples, shown by a player
    without a language table. *)
Definition built (options : Options.t) : MenuItem.t :=
  match constructor (player := plainPlayer) options with
  | Some item => item
  | None => blankItem options
  end.

Definition namelessItem : MenuItem.t := Eval vm_compute in built namelessOptions.
Definition fixedIntroItem : MenuItem.t := Eval vm_compute in built fixedIntroOptions.

End Shape.

(** ** Vocabulary of the further properties *)
Module Facets.
Import Dom Base MenuItem Shape.

Section Facets.
Context {player : Player}.

(** The text that goes with a value of the flag. *)
Definition hintFor (flag : bool) : string := if flag then ", selected" else "".

(** The three rendered facets agree with the flag [isSelected_]. *)
Definition inStep (item : MenuItem.t) : Prop :=
  hasClass selectedClass (el_ item) = isSelected_ item
  /\ getAttribute "aria-checked" (el_ item)
     = Some (if isSelected_ item then "true" else "false")
  /\ controlText_ item = Some (hintFor (isSelected_ item))
  /\ shownControlText item = Some (localize (hintFor (isSelected_ item))).

End Facets.

(** Further sample items: the selectable chapter entry as built, and the
    nameless item after one click. *)
Definition introItem : MenuItem.t := Eval vm_compute in built introOptions.

Definition clickedNamelessItem : MenuItem.t :=
  Eval vm_compute in handleClick (player := plainPlayer) namelessItem.

(** A player whose language table renders the hint [", selected"] with a
    text that happens to contain the chapter marker. *)
Definition oddPlayer : Player :=
  {| localize := fun text => if text =? ", selected" then "(in-chapter-list)" else text |}.

End Facets.

(** * Properties *)

(** ** Facts about the string primitives *)
Module JsStringFacts.
Import JsString.
#[local] Arguments Ascii.eqb : simpl never.

Lemma startsWith_app_l (pat a b : string) :
  startsWith pat a = true -> startsWith pat (a ++ b) = true.
Proof.
  revert a; induction pat as [|p pat IH]; intros a H; [reflexivity|].
  destruct a as [|c a]; simpl in *; [discriminate|].
  apply andb_true_iff in H; destruct H as [Hc Ha].
  rewrite Hc; simpl; auto.
Qed.

Lemma includes_app_l (pat a b : string) :
  includes pat a = true -> includes pat (a ++ b) = true.
Proof.
  induction a as [|c a IH]; simpl; intros H.
  - rewrite orb_false_r in H.
    destruct pat; [destruct b; reflexivity | discriminate].
  - apply orb_true_iff in H; destruct H as [H|H].
    + change (String c (a ++ b)) with (String c a ++ b).
      rewrite (startsWith_app_l _ _ _ H); reflexivity.
    + rewrite (IH H); apply orb_true_r.
Qed.

Lemma includes_app_r (pat a b : string) :
  includes pat b = true -> includes pat (a ++ b) = true.
Proof.
  induction a as [|c a IH]; simpl; intros H; [assumption|].
  rewrite (IH H); apply orb_true_r.
Qed.

Lemma includes_app_mid (pat a b c : string) :
  includes pat b = true -> includes pat (a ++ b ++ c) = true.
Proof.
  intros H; apply includes_app_r, includes_app_l, H.
Qed.

Lemma append_assoc (a b c : string) : (a ++ b) ++ c = a ++ (b ++ c).
Proof. induction a; simpl; congruence. Qed.

Lemma append_empty_r (a : string) : a ++ "" = a.
Proof. induction a; simpl; congruence. Qed.

(** The array [split] returns is never empty, so [split(sep)[0]] is a
    string. *)
Lemma split_from_not_nil sep skip cur s : split_from sep skip cur s <> [].
Proof.
  revert skip cur; induction s as [|c s IH]; intros skip cur; simpl.
  - discriminate.
  - destruct skip; [|apply IH].
    destruct (startsWith sep (String c s)); [discriminate | apply IH].
Qed.

(** A separator-free string is its own single segment. *)
Lemma split_from_no_sep sep cur s :
  includes sep s = false -> split_from sep 0 cur s = [cur ++ s].
Proof.
  revert cur; induction s as [|c s IH]; intros cur H; simpl.
  - now rewrite append_empty_r.
  - simpl in H. apply orb_false_iff in H; destruct H as [H1 H2].
    rewrite H1, (IH _ H2), append_assoc. reflexivity.
Qed.

(** Scanning up to the first occurrence of the two-bar separator: the
    segment collected so far is closed there and the scan resumes right
    after the separator. *)
Lemma split_from_first_bars cur a rest :
  includes "||" (a ++ "|") = false ->
  split_from "||" 0 cur (a ++ "||" ++ rest)
  = (cur ++ a) :: split_from "||" 0 "" rest.
Proof.
  revert cur; induction a as [|c a IH]; intros cur H.
  - simpl. rewrite append_empty_r. destruct rest; reflexivity.
  - assert (Hn : startsWith "||" (String c a ++ "||" ++ rest) = false).
    { simpl in H. apply orb_false_iff in H; destruct H as [H _].
      destruct a as [|d a]; simpl in *.
      - destruct (Ascii.eqb "|" c); simpl in *; [discriminate H | reflexivity].
      - exact H. }
    change (String c a ++ "||" ++ rest) with (String c (a ++ "||" ++ rest)) in *.
    cbn [split_from]. rewrite Hn, IH.
    + now rewrite append_assoc.
    + simpl in H. apply orb_false_iff in H. tauto.
Qed.

Lemma trimEnd_allWhiteSpace s : allWhiteSpace s = true -> trimEnd s = "".
Proof.
  induction s as [|c s IH]; simpl; intros H; [reflexivity|].
  apply andb_true_iff in H; destruct H as [Hc Hs].
  now rewrite (IH Hs), Hc.
Qed.

Lemma trimEnd_not_white c s : isWhiteSpace c = false -> trimEnd (String c s) <> "".
Proof.
  intros Hc; simpl. destruct (trimEnd s); [rewrite Hc|]; discriminate.
Qed.

(** [s.trim() === ''] holds exactly for the strings made of white space
    only (the empty one among them). *)
Lemma trim_empty_iff s : trim s = "" <-> allWhiteSpace s = true.
Proof.
  unfold trim; induction s as [|c s IH]; simpl.
  - tauto.
  - destruct (isWhiteSpace c) eqn:Hc; simpl; [exact IH|].
    split; [|discriminate].
    intros H. exfalso. revert H. apply (trimEnd_not_white c s Hc).
Qed.

End JsStringFacts.

(** ** Facts about the document model *)
Module DomFacts.
Import JsString Dom JsStringFacts.
#[local] Arguments Ascii.eqb : simpl never.
#[local] Arguments String.eqb : simpl never.

(** *** Attribute lists *)

Lemma lookup_store_same {V} name (v : V) attrs :
  lookup name (store name v attrs) = Some v.
Proof.
  induction attrs as [|[k w] rest IH]; simpl.
  - now rewrite String.eqb_refl.
  - destruct (k =? name) eqn:E; simpl; now rewrite E.
Qed.

Lemma lookup_store_other {V} name other (v : V) attrs :
  name <> other -> lookup name (store other v attrs) = lookup name attrs.
Proof.
  intros Hne; induction attrs as [|[k w] rest IH]; simpl.
  - destruct (other =? name) eqn:E; [|reflexivity].
    apply String.eqb_eq in E; congruence.
  - destruct (k =? other) eqn:E; simpl.
    + apply String.eqb_eq in E; subst k.
      destruct (other =? name) eqn:E'; [|reflexivity].
      apply String.eqb_eq in E'; congruence.
    + now rewrite IH.
Qed.

Lemma getAttribute_setAttribute_same name v n :
  isElement n = true -> getAttribute name (setAttribute name v n) = Some v.
Proof. destruct n; [discriminate|]; intros _; apply lookup_store_same. Qed.

Lemma getAttribute_setAttribute_other name other v n :
  name <> other -> getAttribute name (setAttribute other v n) = getAttribute name n.
Proof. destruct n; [reflexivity|]; intros; now apply lookup_store_other. Qed.

Lemma getAttribute_withChildren name kids n :
  getAttribute name (withChildren kids n) = getAttribute name n.
Proof. now destruct n. Qed.

Lemma childNodes_setAttribute name v n :
  childNodes_of (setAttribute name v n) = childNodes_of n.
Proof. now destruct n. Qed.

Lemma childNodes_withChildren kids n :
  isElement n = true -> childNodes_of (withChildren kids n) = kids.
Proof. destruct n; [discriminate | reflexivity]. Qed.

Lemma isElement_setAttribute name v n : isElement (setAttribute name v n) = isElement n.
Proof. now destruct n. Qed.

Lemma isElement_withChildren kids n : isElement (withChildren kids n) = isElement n.
Proof. now destruct n. Qed.

(** *** Class tokens *)

Lemma noWhiteSpace_snoc s c :
  noWhiteSpace s = true -> isWhiteSpace c = false ->
  noWhiteSpace (s ++ String c "") = true.
Proof.
  induction s as [|d s IH]; simpl; intros Hs Hc.
  - now rewrite Hc.
  - apply andb_true_iff in Hs; destruct Hs as [Hd Hs].
    rewrite Hd; simpl; auto.
Qed.

Lemma snoc_not_empty s c : s ++ String c "" <> "".
Proof. destruct s; discriminate. Qed.

Lemma isToken_nonempty cur : cur <> "" -> noWhiteSpace cur = true -> isToken cur = true.
Proof. destruct cur; [congruence | auto]. Qed.

(** Every token the parser yields is well formed. *)
Lemma tokens_from_ok cur s :
  noWhiteSpace cur = true -> Forall (fun t => isToken t = true) (tokens_from cur s).
Proof.
  revert cur; induction s as [|c s IH]; intros cur Hcur; simpl.
  - destruct cur eqn:E; [constructor|]. constructor; [|constructor].
    rewrite <- E in *. apply isToken_nonempty; [subst; discriminate | assumption].
  - destruct (isWhiteSpace c) eqn:Hc.
    + destruct cur eqn:E; [now apply IH|].
      constructor; [|now apply IH].
      rewrite <- E in *. apply isToken_nonempty; [subst; discriminate | assumption].
    + apply IH, noWhiteSpace_snoc; assumption.
Qed.

Lemma tokens_from_token cur t s :
  noWhiteSpace t = true -> tokens_from cur (t ++ s) = tokens_from (cur ++ t) s.
Proof.
  revert cur; induction t as [|c t IH]; intros cur Ht; simpl.
  - now rewrite append_empty_r.
  - simpl in Ht. apply andb_true_iff in Ht; destruct Ht as [Hc Ht].
    apply negb_true_iff in Hc. rewrite Hc, (IH _ Ht), append_assoc. reflexivity.
Qed.

(** Parsing a serialised token list gives the list back. *)
Lemma tokens_concat l :
  Forall (fun t => isToken t = true) l -> tokens (String.concat " " l) = l.
Proof.
  unfold tokens. induction l as [|x [|y r] IH]; intros Hl.
  - reflexivity.
  - inversion Hl as [|? ? Hx _]; subst. simpl.
    rewrite <- (append_empty_r x) at 1.
    rewrite tokens_from_token by (destruct x; [discriminate | exact Hx]).
    simpl. destruct x; [discriminate | reflexivity].
  - inversion Hl as [|? ? Hx Hr]; subst.
    change (String.concat " " (x :: y :: r))
      with (x ++ " " ++ String.concat " " (y :: r)).
    rewrite tokens_from_token by (destruct x; [discriminate | exact Hx]).
    simpl append at 1.
    change (" " ++ String.concat " " (y :: r))
      with (String " " (String.concat " " (y :: r))).
    cbn [tokens_from]. change (isWhiteSpace " ") with true. cbv iota.
    destruct x; [discriminate|]. now rewrite (IH Hr).
Qed.

Lemma Forall_filter {A} (P : A -> Prop) f l : Forall P l -> Forall P (filter f l).
Proof.
  induction 1 as [|x l Hx Hl IH]; simpl; [constructor|].
  destruct (f x); [constructor|]; assumption.
Qed.

Lemma dedup_ok l :
  Forall (fun t => isToken t = true) l -> Forall (fun t => isToken t = true) (dedup l).
Proof.
  induction 1 as [|x l Hx Hl IH]; simpl; constructor; [assumption|].
  now apply Forall_filter.
Qed.

Lemma classList_ok n : Forall (fun t => isToken t = true) (classList n).
Proof.
  unfold classList. destruct (getAttribute "class" n); [|constructor].
  apply dedup_ok, tokens_from_ok. reflexivity.
Qed.

Lemma existsb_filter_other c x l :
  c <> x ->
  existsb (String.eqb c) (filter (fun y => negb (y =? x)) l) = existsb (String.eqb c) l.
Proof.
  intros Hne; induction l as [|y l IH]; simpl; [reflexivity|].
  destruct (y =? x) eqn:E; simpl.
  - apply String.eqb_eq in E; subst y.
    apply String.eqb_neq in Hne. now rewrite Hne.
  - now rewrite IH.
Qed.

Lemma existsb_filter_self c l :
  existsb (String.eqb c) (filter (fun y => negb (y =? c)) l) = false.
Proof.
  induction l as [|y l IH]; simpl; [reflexivity|].
  destruct (y =? c) eqn:E; simpl; [assumption|].
  rewrite String.eqb_sym, E. assumption.
Qed.

Lemma existsb_dedup c l :
  existsb (String.eqb c) (dedup l) = existsb (String.eqb c) l.
Proof.
  induction l as [|x l IH]; simpl; [reflexivity|].
  destruct (c =? x) eqn:E; [reflexivity|]; simpl.
  apply String.eqb_neq in E. now rewrite existsb_filter_other, IH.
Qed.

Lemma existsb_snoc c l : existsb (String.eqb c) (l ++ [c]) = true.
Proof.
  rewrite existsb_app; simpl. rewrite String.eqb_refl. apply orb_true_r.
Qed.

Lemma classList_setClass l n :
  isElement n = true -> Forall (fun t => isToken t = true) l ->
  classList (setAttribute "class" (String.concat " " l) n) = dedup l.
Proof.
  intros Hn Hl. unfold classList.
  rewrite getAttribute_setAttribute_same by assumption.
  now rewrite tokens_concat.
Qed.

(** After [classList.add(c)] the element has class [c]. *)
Lemma hasClass_addClass c n :
  isElement n = true -> isToken c = true -> hasClass c (addClass c n) = true.
Proof.
  intros Hn Hc. unfold hasClass, addClass.
  destruct (existsb (String.eqb c) (classList n)) eqn:E.
  - rewrite classList_setClass by (auto using classList_ok).
    now rewrite existsb_dedup.
  - rewrite classList_setClass.
    + rewrite existsb_dedup. apply existsb_snoc.
    + assumption.
    + apply Forall_app; split; [apply classList_ok | now constructor].
Qed.

(** After [classList.remove(c)] it does not. *)
Lemma hasClass_removeClass c n : hasClass c (removeClass c n) = false.
Proof.
  unfold removeClass. destruct (getAttribute "class" n) eqn:E.
  - destruct n as [|tag attrs ls kids]; [discriminate|].
    unfold hasClass. rewrite classList_setClass; [|reflexivity|].
    + rewrite existsb_dedup. apply existsb_filter_self.
    + apply Forall_filter, classList_ok.
  - unfold hasClass, classList. now rewrite E.
Qed.

Lemma hasClass_setAttribute_other c name v n :
  name <> "class" -> hasClass c (setAttribute name v n) = hasClass c n.
Proof.
  intros Hne. unfold hasClass, classList.
  rewrite getAttribute_setAttribute_other by congruence. reflexivity.
Qed.

Lemma hasClass_withChildren c kids n : hasClass c (withChildren kids n) = hasClass c n.
Proof. unfold hasClass, classList. now rewrite getAttribute_withChildren. Qed.

Lemma getAttribute_addClass name c n :
  name <> "class" -> getAttribute name (addClass c n) = getAttribute name n.
Proof. intros; unfold addClass. now apply getAttribute_setAttribute_other. Qed.

Lemma getAttribute_removeClass name c n :
  name <> "class" -> getAttribute name (removeClass c n) = getAttribute name n.
Proof.
  intros; unfold removeClass. destruct (getAttribute "class" n); [|reflexivity].
  now apply getAttribute_setAttribute_other.
Qed.

Lemma childNodes_addClass c n : childNodes_of (addClass c n) = childNodes_of n.
Proof. apply childNodes_setAttribute. Qed.

Lemma childNodes_removeClass c n : childNodes_of (removeClass c n) = childNodes_of n.
Proof.
  unfold removeClass. destruct (getAttribute "class" n); [|reflexivity].
  apply childNodes_setAttribute.
Qed.

Lemma isElement_addClass c n : isElement (addClass c n) = isElement n.
Proof. apply isElement_setAttribute. Qed.

Lemma isElement_removeClass c n : isElement (removeClass c n) = isElement n.
Proof.
  unfold removeClass. destruct (getAttribute "class" n); [|reflexivity].
  apply isElement_setAttribute.
Qed.

(** *** Children *)

Lemma nth_error_replaceNth {A} i (x : A) l :
  i < List.length l -> nth_error (replaceNth i x l) i = Some x.
Proof.
  revert i; induction l as [|y l IH]; intros i Hi; simpl in *; [lia|].
  destruct i; simpl; [reflexivity | apply IH; lia].
Qed.

Lemma length_replaceNth {A} i (x : A) l :
  List.length (replaceNth i x l) = List.length l.
Proof.
  revert i; induction l as [|y l IH]; intros i; destruct i; simpl; auto.
Qed.

Lemma hd_replaceNth_S {A} i (x : A) l :
  hd_error (replaceNth (S i) x l) = hd_error l.
Proof. now destruct l. Qed.

(** *** Markup *)

Lemma outerHTML_Element tag attrs ls kids :
  outerHTML (Element tag attrs ls kids)
  = openTag tag attrs ++ innerHTML kids ++ closeTag tag.
Proof.
  reflexivity.
Qed.

(** The markup of an element contains whatever the markup of its first
    child contains. *)
Lemma outerHTML_first_child pat n first rest :
  isElement n = true -> childNodes_of n = first :: rest ->
  includes pat (outerHTML first) = true ->
  includes pat (outerHTML n) = true.
Proof.
  destruct n as [|tag attrs ls kids]; [discriminate|].
  cbn [childNodes_of]; intros _ -> H.
  rewrite outerHTML_Element. cbn [innerHTML].
  apply includes_app_r, includes_app_l, includes_app_l, H.
Qed.

End DomFacts.

(** ** Facts about the menu item *)
Module MenuItemFacts.
Import JsString Dom Base MenuItem Shape JsStringFacts DomFacts.
#[local] Arguments Ascii.eqb : simpl never.
#[local] Arguments String.eqb : simpl never.

Section Facts.
Context {player : Player}.

(** *** What [createEl] builds *)

Lemma base_row :
  ClickableComponent.createEl "li"
    (assign [("className", PStr "vjs-menu-item"); ("tabIndex", PNum (-1))] []) []
  = mkRendered
      (Element "li" [("class", "vjs-menu-item"); ("tabindex", "-1"); ("role", "button")]
               [] [ClickableComponent.iconPlaceholder; controlTextSpan]) 1.
Proof. reflexivity. Qed.

Lemma base_placeholder :
  ClickableComponent.createEl "li" [("style", PStr "display: none;")] []
  = mkRendered placeholderRow 1.
Proof. reflexivity. Qed.

Lemma createEl_placeholder options props attrs :
  isChapterNameEmpty (Options.label options) = true ->
  createEl options props attrs = Some (mkRendered placeholderRow 1).
Proof.
  intros H. unfold createEl. rewrite H. now rewrite base_placeholder.
Qed.

Lemma span_createEl className text :
  Base.createEl "span" [("className", PStr className); ("textContent", PStr text)] []
  = span className text.
Proof. reflexivity. Qed.

Lemma createEl_named options :
  isChapterNameEmpty (Options.label options) = false ->
  createEl options [] [] = Some (mkRendered (namedRow (Options.label options)) 2).
Proof.
  intros H. unfold createEl. rewrite H, base_row.
  unfold menuItemText, chapterStartTimeEl, namedRow, secondarySpans, editButton.
  generalize (chapterEvent (Options.label options)) as ev.
  generalize (localize (chapterText (Options.label options))) as text.
  intros text ev.
  destruct (chapterStartTime (Options.label options)) as [startTime|].
  - rewrite !span_createEl.
    generalize (localize startTime) as time; intros time.
    destruct (truthy (Some startTime)); reflexivity.
  - rewrite !span_createEl. reflexivity.
Qed.

(** [createEl] always returns an element. *)
Lemma createEl_returns options :
  exists r, createEl options [] [] = Some r.
Proof.
  destruct (isChapterNameEmpty (Options.label options)) eqn:H.
  - eexists; now apply createEl_placeholder.
  - eexists; now apply createEl_named.
Qed.

(** *** What [selected] does to the instance *)

Lemma wellFormed_iff item :
  wellFormed item = true <->
  isElement (el_ item) = true /\
  exists node, controlTextEl item = Some node /\ isElement node = true.
Proof.
  unfold wellFormed. rewrite andb_true_iff.
  destruct (controlTextEl item) as [node|]; split.
  - intros [H1 H2]; eauto.
  - intros [H1 (n & Hn & H2)]; inversion Hn; subst; auto.
  - intros [_ H]; discriminate.
  - intros [_ (n & Hn & _)]; discriminate.
Qed.

(** The select branch, spelled out on the fields. *)
Lemma selected_select item node :
  selectable item = true ->
  isChapterVariant (el_ item) = false ->
  controlTextEl item = Some node ->
  selected true item
  = MenuItem.mk (options_ item)
      (replaceChild (setTextContent (localize ", selected") node) (controlTextEl_ item)
         (setAttribute "aria-checked" "true" (Dom.addClass "vjs-selected" (el_ item))))
      (controlTextEl_ item) (Some ", selected") (nonIconControl item)
      (selectable item) true (multiSelectable item).
Proof.
  intros Hs Hm Hn. unfold selected. unfold isChapterVariant, marker in Hm.
  rewrite Hs at 1. rewrite Hm. cbn [andb negb].
  unfold controlText, controlTextEl in *.
  cbn [el_ controlTextEl_ with_controlText with_el with_isSelected addClass
       options_ controlText_ nonIconControl selectable isSelected_ multiSelectable].
  rewrite childNodes_setAttribute, childNodes_addClass, Hn. reflexivity.
Qed.

(** The deselect branch, spelled out on the fields. *)
Lemma selected_deselect wanted item node :
  selectable item = true ->
  wanted && negb (isChapterVariant (el_ item)) = false ->
  controlTextEl item = Some node ->
  selected wanted item
  = MenuItem.mk (options_ item)
      (replaceChild (setTextContent (localize "") node) (controlTextEl_ item)
         (setAttribute "aria-checked" "false" (Dom.removeClass "vjs-selected" (el_ item))))
      (controlTextEl_ item) (Some "") (nonIconControl item)
      (selectable item) false (multiSelectable item).
Proof.
  intros Hs Hm Hn. unfold selected. unfold isChapterVariant, marker in Hm.
  rewrite Hs at 1. rewrite Hm.
  unfold controlText, controlTextEl in *.
  cbn [el_ controlTextEl_ with_controlText with_el with_isSelected removeClass
       options_ controlText_ nonIconControl selectable isSelected_ multiSelectable].
  rewrite childNodes_setAttribute, childNodes_removeClass, Hn. reflexivity.
Qed.

Lemma selected_not_selectable wanted item :
  selectable item = false -> selected wanted item = item.
Proof. intros H; unfold selected; now rewrite H. Qed.

(** A call is one of three things. *)
Lemma selected_cases wanted item :
  wellFormed item = true ->
  (selectable item = false /\ selected wanted item = item)
  \/ (exists node, controlTextEl item = Some node /\ isElement node = true /\
        selectable item = true /\ wanted = true /\ isChapterVariant (el_ item) = false)
  \/ (exists node, controlTextEl item = Some node /\ isElement node = true /\
        selectable item = true /\ wanted && negb (isChapterVariant (el_ item)) = false).
Proof.
  intros Hwf. apply wellFormed_iff in Hwf. destruct Hwf as [_ (node & Hn & He)].
  destruct (selectable item) eqn:Hs.
  - right. destruct (wanted && negb (isChapterVariant (el_ item))) eqn:Hb.
    + left. apply andb_true_iff in Hb. destruct Hb as [Hw Hm].
      apply negb_true_iff in Hm. eauto 10.
    + right. eauto 10.
  - left. split; [reflexivity | now apply selected_not_selectable].
Qed.

Lemma textContent_setTextContent text node :
  isElement node = true -> textContent (setTextContent text node) = text.
Proof.
  destruct node; [discriminate|]; intros _.
  destruct text; [reflexivity|]. cbn. now rewrite append_empty_r.
Qed.

Lemma isElement_setTextContent text node :
  isElement (setTextContent text node) = isElement node.
Proof. now destruct node. Qed.

Lemma nth_error_length {A} (l : list A) i x : nth_error l i = Some x -> i < List.length l.
Proof. intros H. apply nth_error_Some. congruence. Qed.

(** Writing through [controlTextEl_] and reading back. *)
Lemma controlTextEl_patched opts el i node new ct nic s sel m :
  isElement el = true ->
  nth_error (childNodes_of el) i = Some node ->
  controlTextEl (MenuItem.mk opts (replaceChild new i el) i ct nic s sel m) = Some new.
Proof.
  intros He Hn. unfold controlTextEl, replaceChild. cbn [el_ controlTextEl_].
  rewrite childNodes_withChildren by assumption.
  apply nth_error_replaceNth. eapply nth_error_length, Hn.
Qed.

Lemma selected_wellFormed wanted item :
  wellFormed item = true -> wellFormed (selected wanted item) = true.
Proof.
  intros Hwf. destruct (selected_cases wanted item Hwf)
    as [[_ ->] | [(node & Hn & He & Hs & -> & Hm) | (node & Hn & He & Hs & Hm)]];
    [assumption| |].
  - rewrite (selected_select _ _ Hs Hm Hn).
    apply wellFormed_iff in Hwf. destruct Hwf as [Hel _].
    apply wellFormed_iff. split.
    + cbn [el_]. unfold replaceChild.
      now rewrite isElement_withChildren, isElement_setAttribute, isElement_addClass.
    + eexists. split.
      * apply controlTextEl_patched with (node := node).
        -- now rewrite isElement_setAttribute, isElement_addClass.
        -- now rewrite childNodes_setAttribute, childNodes_addClass.
      * now rewrite isElement_setTextContent.
  - rewrite (selected_deselect _ _ _ Hs Hm Hn).
    apply wellFormed_iff in Hwf. destruct Hwf as [Hel _].
    apply wellFormed_iff. split.
    + cbn [el_]. unfold replaceChild.
      now rewrite isElement_withChildren, isElement_setAttribute, isElement_removeClass.
    + eexists. split.
      * apply controlTextEl_patched with (node := node).
        -- now rewrite isElement_setAttribute, isElement_removeClass.
        -- now rewrite childNodes_setAttribute, childNodes_removeClass.
      * now rewrite isElement_setTextContent.
Qed.

Lemma selectedCalls_wellFormed calls item :
  wellFormed item = true -> wellFormed (selectedCalls calls item) = true.
Proof.
  unfold selectedCalls. revert item.
  induction calls as [|b calls IH]; intros item H; simpl; [assumption|].
  apply IH, selected_wellFormed, H.
Qed.

(** *** Fields a call leaves alone *)

Lemma selected_fields wanted item :
  options_ (selected wanted item) = options_ item
  /\ controlTextEl_ (selected wanted item) = controlTextEl_ item
  /\ selectable (selected wanted item) = selectable item
  /\ multiSelectable (selected wanted item) = multiSelectable item.
Proof.
  unfold selected, controlText.
  destruct (selectable item) eqn:Hs; [|now rewrite Hs].
  destruct (wanted && _);
    match goal with |- context [match ?c with _ => _ end] => destruct c end;
    cbn; now rewrite Hs.
Qed.

Lemma selected_selectable wanted item :
  selectable (selected wanted item) = selectable item.
Proof. apply selected_fields. Qed.

Lemma selectedCalls_selectable calls item :
  selectable (selectedCalls calls item) = selectable item.
Proof.
  unfold selectedCalls. revert item.
  induction calls as [|b calls IH]; intros item; simpl; [reflexivity|].
  now rewrite IH, selected_selectable.
Qed.

(** An attribute other than [class] and [aria-checked] survives a call. *)
Lemma selected_getAttribute name wanted item :
  wellFormed item = true -> name <> "class" -> name <> "aria-checked" ->
  getAttribute name (el_ (selected wanted item)) = getAttribute name (el_ item).
Proof.
  intros Hwf Hc Ha. destruct (selected_cases wanted item Hwf)
    as [[_ ->] | [(node & Hn & He & Hs & -> & Hm) | (node & Hn & He & Hs & Hm)]];
    [reflexivity| |].
  - rewrite (selected_select _ _ Hs Hm Hn). cbn [el_]. unfold replaceChild.
    rewrite getAttribute_withChildren, getAttribute_setAttribute_other by assumption.
    now apply getAttribute_addClass.
  - rewrite (selected_deselect _ _ _ Hs Hm Hn). cbn [el_]. unfold replaceChild.
    rewrite getAttribute_withChildren, getAttribute_setAttribute_other by assumption.
    now apply getAttribute_removeClass.
Qed.

(** *** The select branch, observed *)

Lemma selected_true_enters item :
  wellFormed item = true ->
  selectable item = true ->
  isChapterVariant (el_ item) = false ->
  hasClass selectedClass (el_ (selected true item)) = true
  /\ getAttribute "aria-checked" (el_ (selected true item)) = Some "true"
  /\ controlText_ (selected true item) = Some ", selected"
  /\ shownControlText (selected true item) = Some (localize ", selected")
  /\ isSelected_ (selected true item) = true.
Proof.
  intros Hwf Hs Hm. apply wellFormed_iff in Hwf.
  destruct Hwf as [Hel (node & Hn & He)].
  rewrite (selected_select _ _ Hs Hm Hn).
  cbn [el_ controlText_ isSelected_].
  repeat split.
  - unfold replaceChild.
    rewrite hasClass_withChildren, hasClass_setAttribute_other by discriminate.
    now apply hasClass_addClass.
  - unfold replaceChild. rewrite getAttribute_withChildren.
    apply getAttribute_setAttribute_same. now rewrite isElement_addClass.
  - unfold shownControlText.
    erewrite (controlTextEl_patched _ _ _ node).
    + cbn [option_map]. now rewrite textContent_setTextContent.
    + now rewrite isElement_setAttribute, isElement_addClass.
    + now rewrite childNodes_setAttribute, childNodes_addClass.
Qed.

(** *** The deselect branch, observed *)

Lemma selected_leaves wanted item :
  wellFormed item = true ->
  selectable item = true ->
  wanted && negb (isChapterVariant (el_ item)) = false ->
  hasClass selectedClass (el_ (selected wanted item)) = false
  /\ getAttribute "aria-checked" (el_ (selected wanted item)) = Some "false"
  /\ controlText_ (selected wanted item) = Some ""
  /\ shownControlText (selected wanted item) = Some (localize "")
  /\ isSelected_ (selected wanted item) = false.
Proof.
  intros Hwf Hs Hm. apply wellFormed_iff in Hwf.
  destruct Hwf as [Hel (node & Hn & He)].
  rewrite (selected_deselect _ _ _ Hs Hm Hn).
  cbn [el_ controlText_ isSelected_].
  repeat split.
  - unfold replaceChild.
    rewrite hasClass_withChildren, hasClass_setAttribute_other by discriminate.
    apply hasClass_removeClass.
  - unfold replaceChild. rewrite getAttribute_withChildren.
    apply getAttribute_setAttribute_same. now rewrite isElement_removeClass.
  - unfold shownControlText.
    erewrite (controlTextEl_patched _ _ _ node).
    + cbn [option_map]. now rewrite textContent_setTextContent.
    + now rewrite isElement_setAttribute, isElement_removeClass.
    + now rewrite childNodes_setAttribute, childNodes_removeClass.
Qed.

(** *** Items that start with the edit affordance *)

Lemma editButton_marker label :
  includes marker (outerHTML (editButton label)) = true.
Proof. reflexivity. Qed.

Lemma keepsEditButton_chapterVariant label item :
  keepsEditButton label item -> isChapterVariant (el_ item) = true.
Proof.
  intros (Hwf & Hhd & _). apply wellFormed_iff in Hwf. destruct Hwf as [Hel _].
  destruct (childNodes_of (el_ item)) as [|first rest] eqn:Hk; [discriminate|].
  inversion Hhd; subst first.
  eapply outerHTML_first_child; eauto using editButton_marker.
Qed.

(** With the marker in the markup the argument of the call plays no part:
    the guard of the select branch is false. *)
Lemma keepsEditButton_guard label wanted item :
  keepsEditButton label item ->
  wanted && negb (isChapterVariant (el_ item)) = false.
Proof.
  intros H. rewrite (keepsEditButton_chapterVariant _ _ H).
  apply andb_false_r.
Qed.

Lemma selected_keepsEditButton label wanted item :
  keepsEditButton label item -> keepsEditButton label (selected wanted item).
Proof.
  intros H. pose proof (keepsEditButton_guard label wanted item H) as Hg.
  destruct H as (Hwf & Hhd & Hi).
  split; [now apply selected_wellFormed|].
  destruct (selected_fields wanted item) as (_ & Hidx & _).
  rewrite Hidx. split; [|assumption].
  destruct (selectable item) eqn:Hs;
    [|now rewrite selected_not_selectable].
  pose proof Hwf as Hwf'. apply wellFormed_iff in Hwf'.
  destruct Hwf' as [Hel (node & Hn & He)].
  rewrite (selected_deselect _ _ _ Hs Hg Hn). cbn [el_]. unfold replaceChild.
  rewrite childNodes_withChildren
    by now rewrite isElement_setAttribute, isElement_removeClass.
  rewrite childNodes_setAttribute, childNodes_removeClass.
  destruct (controlTextEl_ item) as [|i]; [lia|].
  now rewrite hd_replaceNth_S.
Qed.

Lemma selected_looksUnselected label wanted item :
  keepsEditButton label item -> looksUnselected item ->
  looksUnselected (selected wanted item).
Proof.
  intros H Hl. pose proof (keepsEditButton_guard label wanted item H) as Hg.
  destruct H as (Hwf & _).
  destruct (selectable item) eqn:Hs;
    [|now rewrite selected_not_selectable].
  destruct (selected_leaves wanted item Hwf Hs Hg) as (Hc & Ha & _).
  split; [assumption | rewrite Ha; discriminate].
Qed.

(** *** The constructor *)

Lemma constructor_eq options r :
  createEl options [] [] = Some r ->
  constructor options
  = Some (let this := selected (Options.selected options || false) (afterSuper options r) in
          with_el (setAttribute "role" (roleOf options) (el_ this)) this).
Proof.
  intros H. unfold constructor. rewrite H. cbn [isSelected_].
  fold (afterSuper options r).
  destruct (selected_fields (Options.selected options || false) (afterSuper options r))
    as (_ & _ & Hs & Hm).
  cbv zeta. rewrite Hs, Hm. cbn [afterSuper selectable multiSelectable].
  unfold roleOf.
  destruct (Options.selectable options), (Options.multiSelectable options); reflexivity.
Qed.

Lemma wellFormed_with_role role item :
  wellFormed item = true ->
  wellFormed (with_el (setAttribute "role" role (el_ item)) item) = true.
Proof.
  unfold wellFormed, controlTextEl. cbn [el_ controlTextEl_ with_el].
  now rewrite isElement_setAttribute, childNodes_setAttribute.
Qed.

Lemma afterSuper_placeholder_wellFormed options :
  wellFormed (afterSuper options (mkRendered placeholderRow 1)) = true.
Proof. reflexivity. Qed.

Lemma afterSuper_named_wellFormed options label :
  wellFormed (afterSuper options (mkRendered (namedRow label) 2)) = true.
Proof. reflexivity. Qed.

Lemma afterSuper_wellFormed options r :
  createEl options [] [] = Some r -> wellFormed (afterSuper options r) = true.
Proof.
  intros H. destruct (isChapterNameEmpty (Options.label options)) eqn:E.
  - rewrite (createEl_placeholder _ _ _ E) in H. inversion H; subst.
    apply afterSuper_placeholder_wellFormed.
  - rewrite (createEl_named _ E) in H. inversion H; subst.
    apply afterSuper_named_wellFormed.
Qed.

(** The constructor returns, and what it returns is usable, has the
    configured flags and the role of its branch. *)
Lemma constructor_returns options :
  exists item,
    constructor options = Some item
    /\ wellFormed item = true
    /\ options_ item = options
    /\ selectable item = Options.selectable options
    /\ multiSelectable item = Options.multiSelectable options
    /\ getAttribute "role" (el_ item) = Some (roleOf options).
Proof.
  destruct (createEl_returns options) as [r Hr].
  pose proof (afterSuper_wellFormed _ _ Hr) as Hwf.
  rewrite (constructor_eq _ _ Hr). cbv zeta.
  set (this := selected _ _).
  assert (Hthis : wellFormed this = true) by now apply selected_wellFormed.
  destruct (selected_fields (Options.selected options || false) (afterSuper options r))
    as (Ho & _ & Hs & Hm).
  eexists; split; [reflexivity|].
  split; [now apply wellFormed_with_role|].
  cbn [el_ options_ with_el selectable multiSelectable].
  repeat split; try assumption.
  apply getAttribute_setAttribute_same.
  apply wellFormed_iff in Hthis. tauto.
Qed.

(** The constructed item of a label with a name. *)
Lemma constructor_named options :
  isChapterNameEmpty (Options.label options) = false ->
  exists item,
    constructor options = Some item
    /\ keepsEditButton (Options.label options) item
    /\ looksUnselected item
    /\ selectable item = Options.selectable options
    /\ isSelected_ item
       = (if Options.selectable options then false else Options.selected options).
Proof.
  intros E. pose proof (createEl_named _ E) as Hr.
  rewrite (constructor_eq _ _ Hr). cbv zeta.
  set (label := Options.label options) in *.
  set (start := afterSuper options _).
  assert (Hk : keepsEditButton label start).
  { split; [apply afterSuper_named_wellFormed|]. split; [reflexivity | cbn; lia]. }
  assert (Hl : looksUnselected start).
  { split; [reflexivity | cbn; discriminate]. }
  set (this := selected _ start).
  assert (Hk' : keepsEditButton label this) by now apply selected_keepsEditButton.
  assert (Hl' : looksUnselected this) by now apply (selected_looksUnselected label).
  eexists; split; [reflexivity|].
  destruct Hk' as (Hwf & Hhd & Hi). destruct Hl' as (Hc & Ha).
  split; [|split; [|split]].
  - split; [now apply wellFormed_with_role|].
    cbn [el_ with_el controlTextEl_]. now rewrite childNodes_setAttribute.
  - split; cbn [el_ with_el].
    + now rewrite hasClass_setAttribute_other by discriminate.
    + now rewrite getAttribute_setAttribute_other by discriminate.
  - cbn [with_el selectable]. apply selected_selectable.
  - cbn [with_el isSelected_]. subst this.
    destruct (Options.selectable options) eqn:Hs.
    + apply selected_leaves; [apply afterSuper_named_wellFormed | exact Hs |].
      now apply (keepsEditButton_guard label).
    + subst start. rewrite selected_not_selectable by exact Hs.
      cbn [afterSuper isSelected_]. apply orb_false_r.
Qed.

Lemma placeholder_not_chapterVariant : isChapterVariant placeholderRow = false.
Proof. reflexivity. Qed.

(** The constructed item of a label without a name. *)
Lemma constructor_placeholder options :
  isChapterNameEmpty (Options.label options) = true ->
  exists item,
    constructor options = Some item
    /\ wellFormed item = true
    /\ selectable item = Options.selectable options
    /\ isSelected_ item = Options.selected options.
Proof.
  intros E. pose proof (createEl_placeholder _ [] [] E) as Hr.
  rewrite (constructor_eq _ _ Hr). cbv zeta.
  set (start := afterSuper options _).
  assert (Hwf : wellFormed start = true) by apply afterSuper_placeholder_wellFormed.
  eexists; split; [reflexivity|].
  split; [now apply wellFormed_with_role, selected_wellFormed|].
  cbn [with_el selectable isSelected_].
  split; [apply selected_selectable|].
  rewrite orb_false_r.
  destruct (Options.selectable options) eqn:Hs.
  2:{ subst start. rewrite selected_not_selectable by exact Hs.
      cbn [afterSuper isSelected_]. apply orb_false_r. }
  destruct (Options.selected options) eqn:Hsel.
  - apply selected_true_enters; [assumption | exact Hs |].
    apply placeholder_not_chapterVariant.
  - apply (selected_leaves false); [assumption | exact Hs | reflexivity].
Qed.

(** *** Runs of calls *)

Lemma selectedCalls_cons wanted calls item :
  selectedCalls (wanted :: calls) item = selectedCalls calls (selected wanted item).
Proof. reflexivity. Qed.

Lemma selectedCalls_keepsEditButton label calls item :
  keepsEditButton label item -> looksUnselected item ->
  keepsEditButton label (selectedCalls calls item)
  /\ looksUnselected (selectedCalls calls item).
Proof.
  revert item; induction calls as [|b calls IH]; intros item Hk Hl; [now split|].
  rewrite selectedCalls_cons. apply IH.
  - now apply selected_keepsEditButton.
  - now apply (selected_looksUnselected label).
Qed.

Lemma selectedCalls_role role calls item :
  wellFormed item = true ->
  getAttribute "role" (el_ item) = Some role ->
  getAttribute "role" (el_ (selectedCalls calls item)) = Some role.
Proof.
  revert item; induction calls as [|b calls IH]; intros item Hwf Hr; [assumption|].
  rewrite selectedCalls_cons. apply IH; [now apply selected_wellFormed|].
  rewrite selected_getAttribute by (assumption || discriminate). assumption.
Qed.

Lemma selectedCalls_not_selectable calls item :
  selectable item = false -> selectedCalls calls item = item.
Proof.
  intros H; induction calls as [|b calls IH]; [reflexivity|].
  now rewrite selectedCalls_cons, selected_not_selectable.
Qed.

Lemma selectedCalls_named_flag label calls item :
  keepsEditButton label item -> selectable item = true -> isSelected_ item = false ->
  isSelected_ (selectedCalls calls item) = false.
Proof.
  revert item; induction calls as [|b calls IH]; intros item Hk Hs Hf; [assumption|].
  rewrite selectedCalls_cons. apply IH.
  - now apply selected_keepsEditButton.
  - now rewrite selected_selectable.
  - apply selected_leaves; [apply Hk | exact Hs |].
    now apply (keepsEditButton_guard label).
Qed.

(** On such an item the two calls are the same call. *)
Lemma keepsEditButton_same_call label item :
  keepsEditButton label item -> selected true item = selected false item.
Proof.
  intros Hk. destruct (selectable item) eqn:Hs;
    [|now rewrite !selected_not_selectable].
  pose proof (keepsEditButton_guard label true item Hk) as Hg.
  destruct Hk as (Hwf & _). apply wellFormed_iff in Hwf.
  destruct Hwf as [_ (node & Hn & _)].
  rewrite (selected_deselect true _ _ Hs Hg Hn).
  now rewrite (selected_deselect false _ _ Hs eq_refl Hn).
Qed.

Lemma namedRow_chapterVariant label : isChapterVariant (namedRow label) = true.
Proof.
  apply (outerHTML_first_child marker _ (editButton label)
           ([span "vjs-menu-item-text" (localize (chapterText label)); controlTextSpan]
              ++ secondarySpans label)); reflexivity.
Qed.

(** *** The test on the name, in words *)

Lemma isChapterNameEmpty_false_iff label :
  isChapterNameEmpty label = false <-> trim (chapterText label) <> "".
Proof. unfold isChapterNameEmpty. apply String.eqb_neq. Qed.

Lemma isChapterNameEmpty_true_iff label :
  isChapterNameEmpty label = true <-> allWhiteSpace (chapterText label) = true.
Proof.
  unfold isChapterNameEmpty. rewrite String.eqb_eq. apply trim_empty_iff.
Qed.

Lemma lifetime_eq options calls item :
  constructor options = Some item ->
  lifetime options calls = Some (selectedCalls calls item).
Proof. intros H; unfold lifetime; now rewrite H. Qed.

Lemma lifetime_inv options calls item :
  lifetime options calls = Some item ->
  exists start, constructor options = Some start /\ item = selectedCalls calls start.
Proof.
  unfold lifetime. destruct (constructor options) as [start|]; [|discriminate].
  intros H; inversion H; eauto.
Qed.

End Facts.
End MenuItemFacts.

(** ** The claims *)

Import JsString Dom Base MenuItem Shape JsStringFacts DomFacts MenuItemFacts.

(** C1.  On a selectable item whose markup does not contain the chapter
    marker, [selected(true)] enters the selected state: the element has
    the class [vjs-selected], its [aria-checked] attribute is ["true"],
    the control text is [", selected"] (shown localised by the
    control-text element, which follows the item's text), and the flag
    [isSelected_] is true.  The item is any item the constructor built,
    after any run of earlier calls. *)
Theorem selected_true_enters_selected_state {player : Player}
    (options : Options.t) (calls : list bool) (item : MenuItem.t) :
  lifetime options calls = Some item ->
  selectable item = true ->
  includes "-chapter-" (outerHTML (el_ item)) = false ->
  hasClass "vjs-selected" (el_ (selected true item)) = true
  /\ getAttribute "aria-checked" (el_ (selected true item)) = Some "true"
  /\ controlText_ (selected true item) = Some ", selected"
  /\ shownControlText (selected true item) = Some (localize ", selected")
  /\ isSelected_ (selected true item) = true.
Proof.
  intros Hlife Hs Hm.
  destruct (lifetime_inv _ _ _ Hlife) as (start & Hc & ->).
  destruct (constructor_returns options) as (start' & Hc' & Hwf & _).
  rewrite Hc in Hc'; inversion Hc'; subst start'.
  apply selected_true_enters; [now apply selectedCalls_wellFormed | assumption..].
Qed.

Lemma selected_true_enters_selected_state_witness :
  (lifetime (player := plainPlayer) namelessOptions [] = Some namelessItem
   /\ selectable namelessItem = true
   /\ includes "-chapter-" (outerHTML (el_ namelessItem)) = false)
  /\ hasClass "vjs-selected" (el_ (selected (player := plainPlayer) true namelessItem)) = true
  /\ isSelected_ (selected (player := plainPlayer) true namelessItem) = true.
Proof.
  split; [repeat split; vm_compute; reflexivity|].
  assert (H := selected_true_enters_selected_state (player := plainPlayer)
                 namelessOptions [] namelessItem).
  destruct H as (Hc & _ & _ & _ & Hf); [vm_compute; reflexivity..|].
  split; assumption.
Defined.

(** C2, as the code has it.  An item whose label has a non-empty name
    starts with the prepended span of class
    [vjs-menu-item-chapter-edit-button]; its markup therefore contains
    [-chapter-] at every call, the class [vjs-selected] is never present
    and [aria-checked] is never ["true"].  When the item is selectable,
    [selected(true)] takes the deselect branch and the flag is false after
    construction and after every call.  (When it is not selectable the
    call does nothing and the flag keeps the configured value.) *)
Theorem named_item_is_always_chapter_variant {player : Player}
    (options : Options.t) (calls : list bool) :
  trim (chapterText (Options.label options)) <> "" ->
  exists item button rest,
    lifetime options calls = Some item
    /\ childNodes_of (el_ item) = button :: rest
    /\ getAttribute "class" button = Some "vjs-menu-item-chapter-edit-button"
    /\ includes "-chapter-" (outerHTML (el_ item)) = true
    /\ hasClass "vjs-selected" (el_ item) = false
    /\ getAttribute "aria-checked" (el_ item) <> Some "true"
    /\ selected true item = selected false item
    /\ hasClass "vjs-selected" (el_ (selected true item)) = false
    /\ getAttribute "aria-checked" (el_ (selected true item)) <> Some "true"
    /\ (Options.selectable options = true ->
        isSelected_ item = false
        /\ getAttribute "aria-checked" (el_ (selected true item)) = Some "false"
        /\ controlText_ (selected true item) = Some ""
        /\ isSelected_ (selected true item) = false)
    /\ (Options.selectable options = false ->
        selected true item = item
        /\ isSelected_ item = Options.selected options).
Proof.
  intros Hname. apply isChapterNameEmpty_false_iff in Hname.
  destruct (constructor_named options Hname) as (start & Hc & Hk & Hl & Hs & Hf).
  destruct (selectedCalls_keepsEditButton _ calls _ Hk Hl) as (Hk' & Hl').
  set (item := selectedCalls calls start) in *.
  assert (Hsel : selectable item = Options.selectable options)
    by (subst item; now rewrite selectedCalls_selectable).
  pose proof (selected_looksUnselected _ true _ Hk' Hl') as (Hc1 & Ha1).
  destruct Hl' as (Hc0 & Ha0).
  pose proof Hk' as (Hwf & Hhd & _).
  destruct (childNodes_of (el_ item)) as [|button rest] eqn:Hkids; [discriminate|].
  inversion Hhd; subst button.
  exists item, (editButton (Options.label options)), rest.
  split; [now apply lifetime_eq|]. split; [assumption|]. split; [reflexivity|].
  split; [now apply (keepsEditButton_chapterVariant (Options.label options))|].
  do 2 (split; [assumption|]).
  split; [now apply (keepsEditButton_same_call (Options.label options))|].
  do 2 (split; [assumption|]).
  split; intros Hopt; rewrite Hopt in *.
  - assert (Hflag : isSelected_ item = false)
      by (subst item; now apply (selectedCalls_named_flag (Options.label options))).
    split; [assumption|].
    pose proof (keepsEditButton_guard _ true _ Hk') as Hg.
    destruct (selected_leaves true item Hwf Hsel Hg) as (_ & Ha & Ht & _ & Hi).
    repeat split; assumption.
  - subst item. rewrite selectedCalls_not_selectable by assumption.
    split; [now apply selected_not_selectable | assumption].
Qed.

Lemma named_item_is_always_chapter_variant_witness :
  trim (chapterText (Options.label introOptions)) <> ""
  /\ exists item,
       lifetime (player := plainPlayer) introOptions [true] = Some item
       /\ includes "-chapter-" (outerHTML (el_ item)) = true
       /\ isSelected_ (selected (player := plainPlayer) true item) = false.
Proof.
  assert (Hname : trim (chapterText (Options.label introOptions)) <> "")
    by (vm_compute; discriminate).
  split; [exact Hname|].
  destruct (named_item_is_always_chapter_variant (player := plainPlayer)
              introOptions [true] Hname)
    as (item & button & rest & Hl & _ & _ & Hm & _ & _ & _ & _ & _ & Hsel & _).
  exists item. split; [exact Hl|]. split; [exact Hm|].
  apply Hsel. reflexivity.
Defined.

(** C2 as stated fails on an item that is not selectable: with the label
    ["Intro||00:00:10"], [selectable: false] and [selected: true] the flag
    is true after construction and stays true, and [selected(true)] does
    not take the deselect branch ([aria-checked] is not set at all). *)
Lemma not_selectable_named_item_keeps_flag :
  trim (chapterText (Options.label fixedIntroOptions)) <> ""
  /\ constructor (player := plainPlayer) fixedIntroOptions = Some fixedIntroItem
  /\ isSelected_ fixedIntroItem = true
  /\ isSelected_ (selected (player := plainPlayer) true fixedIntroItem) = true
  /\ getAttribute "aria-checked"
       (el_ (selected (player := plainPlayer) true fixedIntroItem)) = None.
Proof.
  split; [vm_compute; discriminate|]. repeat split; vm_compute; reflexivity.
Qed.

(** C3.  An item whose rendered markup contains the chapter marker never
    has the class [vjs-selected] and never has [aria-checked="true"],
    whatever run of [selected] calls follows its construction; its markup
    keeps the marker throughout. *)
Theorem chapter_variant_never_looks_selected {player : Player}
    (options : Options.t) (r : Rendered) (calls : list bool) :
  createEl options [] [] = Some r ->
  includes "-chapter-" (outerHTML (element r)) = true ->
  exists item,
    lifetime options calls = Some item
    /\ hasClass "vjs-selected" (el_ item) = false
    /\ getAttribute "aria-checked" (el_ item) <> Some "true"
    /\ includes "-chapter-" (outerHTML (el_ item)) = true.
Proof.
  intros Hr Hm.
  destruct (isChapterNameEmpty (Options.label options)) eqn:E.
  - rewrite (createEl_placeholder _ _ _ E) in Hr. inversion Hr; subst r.
    cbn [element] in Hm. pose proof placeholder_not_chapterVariant as Hp.
    unfold isChapterVariant, marker in Hp. congruence.
  - destruct (constructor_named options E) as (start & Hc & Hk & Hl & _).
    destruct (selectedCalls_keepsEditButton _ calls _ Hk Hl) as (Hk' & Hc' & Ha').
    exists (selectedCalls calls start).
    split; [now apply lifetime_eq|]. do 2 (split; [assumption|]).
    now apply (keepsEditButton_chapterVariant (Options.label options)).
Qed.

Lemma chapter_variant_never_looks_selected_witness :
  (createEl (player := plainPlayer) introOptions [] []
     = Some (mkRendered (namedRow (player := plainPlayer) introLabel) 2)
   /\ includes "-chapter-" (outerHTML (namedRow (player := plainPlayer) introLabel)) = true)
  /\ exists item,
       lifetime (player := plainPlayer) introOptions [true; false; true] = Some item
       /\ hasClass "vjs-selected" (el_ item) = false
       /\ getAttribute "aria-checked" (el_ item) <> Some "true".
Proof.
  split; [split; vm_compute; reflexivity|].
  destruct (chapter_variant_never_looks_selected (player := plainPlayer)
              introOptions (mkRendered (namedRow (player := plainPlayer) introLabel) 2)
              [true; false; true])
    as (item & Hl & Hc & Ha & _); [vm_compute; reflexivity..|].
  exists item. repeat split; assumption.
Defined.

(** C4, as the code has it.  Right after construction the flag
    [isSelected_] is the configured [selected] value, except on a
    selectable item whose rendered markup contains the chapter marker,
    where it is false; the markup contains the marker exactly when the
    label has a non-empty name. *)
Theorem constructed_flag_follows_configuration {player : Player} (options : Options.t) :
  exists r item,
    createEl options [] [] = Some r
    /\ constructor options = Some item
    /\ isSelected_ item
       = Options.selected options
         && negb (Options.selectable options
                  && includes "-chapter-" (outerHTML (element r)))
    /\ includes "-chapter-" (outerHTML (element r))
       = negb (isChapterNameEmpty (Options.label options)).
Proof.
  destruct (isChapterNameEmpty (Options.label options)) eqn:E.
  - destruct (constructor_placeholder options E) as (item & Hc & _ & _ & Hf).
    exists (mkRendered placeholderRow 1), item.
    split; [now apply createEl_placeholder|]. split; [assumption|].
    cbn [element]. pose proof placeholder_not_chapterVariant as Hp.
    unfold isChapterVariant, marker in Hp. rewrite Hp, Hf.
    now rewrite andb_false_r, andb_true_r.
  - destruct (constructor_named options E) as (item & Hc & _ & _ & _ & Hf).
    exists (mkRendered (namedRow (Options.label options)) 2), item.
    split; [now apply createEl_named|]. split; [assumption|].
    cbn [element]. pose proof (namedRow_chapterVariant (Options.label options)) as Hp.
    unfold isChapterVariant, marker in Hp. rewrite Hp, Hf.
    destruct (Options.selectable options), (Options.selected options);
      split; reflexivity.
Qed.

(** C4 as stated fails on a selectable chapter entry configured
    [selected: true]: its flag is false once the constructor returns. *)
Lemma selected_chapter_entry_starts_unselected :
  Options.selected introOptions = true
  /\ option_map isSelected_ (constructor (player := plainPlayer) introOptions)
     = Some false.
Proof. split; vm_compute; reflexivity. Qed.

(** C5.  On an item that is not selectable, any run of [selected] calls
    is a no-op: the instance is unchanged, and with it the class list,
    the [aria-checked] attribute and the control text. *)
Theorem not_selectable_calls_change_nothing {player : Player}
    (item : MenuItem.t) (calls : list bool) :
  selectable item = false ->
  selectedCalls calls item = item
  /\ classList (el_ (selectedCalls calls item)) = classList (el_ item)
  /\ getAttribute "aria-checked" (el_ (selectedCalls calls item))
     = getAttribute "aria-checked" (el_ item)
  /\ controlText_ (selectedCalls calls item) = controlText_ item
  /\ shownControlText (selectedCalls calls item) = shownControlText item.
Proof.
  intros H. rewrite (selectedCalls_not_selectable calls item H).
  repeat split.
Qed.

Lemma not_selectable_calls_change_nothing_witness :
  selectable fixedIntroItem = false
  /\ selectedCalls (player := plainPlayer) [true; false; true] fixedIntroItem
     = fixedIntroItem.
Proof.
  split; [reflexivity|].
  apply (not_selectable_calls_change_nothing (player := plainPlayer)
           fixedIntroItem [true; false; true]).
  reflexivity.
Defined.

(** C6, as the code has it.  The constructor leaves the element with the
    role [menuitemcheckbox] when the item is selectable and
    multi-selectable, [menuitemradio] when it is selectable and not
    multi-selectable, [menuitem] when it is not selectable; no run of
    [selected] calls changes it. *)
Theorem role_is_fixed_at_construction {player : Player}
    (options : Options.t) (calls : list bool) :
  exists item,
    lifetime options calls = Some item
    /\ getAttribute "role" (el_ item)
       = Some (if Options.selectable options
               then if Options.multiSelectable options
                    then "menuitemcheckbox" else "menuitemradio"
               else "menuitem").
Proof.
  destruct (constructor_returns options) as (start & Hc & Hwf & _ & _ & _ & Hr).
  exists (selectedCalls calls start). split; [now apply lifetime_eq|].
  now apply selectedCalls_role.
Qed.

(** C6 as stated fails for [multiSelectable: true] with
    [selectable: false]: the role is [menuitem], not
    [menuitemcheckbox]. *)
Lemma multi_selectable_without_selectable_is_menuitem :
  Options.multiSelectable inertMultiOptions = true
  /\ option_map (fun item => getAttribute "role" (el_ item))
       (constructor (player := plainPlayer) inertMultiOptions)
     = Some (Some "menuitem")
  /\ ~ (exists item,
          constructor (player := plainPlayer) inertMultiOptions = Some item
          /\ getAttribute "role" (el_ item) = Some "menuitemcheckbox").
Proof.
  split; [reflexivity|]. split; [vm_compute; reflexivity|].
  intros (item & Hc & Hr). vm_compute in Hc. inversion Hc; subst item.
  vm_compute in Hr. discriminate.
Qed.

(** C7, as the code has it.  A keydown whose key matches one of the
    menu's reserved keys makes no call to the base class's handler and
    leaves the event as it found it: its propagation is not stopped and
    its default action is not prevented, so the key is ignored here, not
    consumed.  A keydown that matches none of the reserved keys is passed
    to the base handler exactly once, and the event is left as that
    handler leaves it. *)
Theorem handleKeyDown_ignores_menu_keys {keys : KeyTable}
    (event : KeyboardEvent) (flags : EventFlags) (item : MenuItem.t) :
  ((exists key, In key MenuKeys /\ isEventKey event key = true) ->
   fst (handleKeyDown event flags item) = []
   /\ snd (handleKeyDown event flags item) = flags)
  /\ ((forall key, In key MenuKeys -> isEventKey event key = false) ->
      fst (handleKeyDown event flags item) = [SuperHandleKeyDown event]
      /\ List.length (fst (handleKeyDown event flags item)) = 1
      /\ snd (handleKeyDown event flags item) = superHandleKeyDown event flags).
Proof.
  unfold handleKeyDown. split.
  - intros H.
    assert (E : existsb (fun key => isEventKey event key) MenuKeys = true)
      by (apply existsb_exists; exact H).
    rewrite E. split; reflexivity.
  - intros H.
    assert (E : existsb (fun key => isEventKey event key) MenuKeys = false).
    { destruct (existsb _ MenuKeys) eqn:E; [|reflexivity].
      apply existsb_exists in E. destruct E as (key & Hin & Hk).
      rewrite (H key Hin) in Hk. discriminate. }
    rewrite E. repeat split; reflexivity.
Qed.

Lemma handleKeyDown_ignores_menu_keys_witness :
  (fst (handleKeyDown (keys := menuKeyTable) "Tab" freshFlags namelessItem) = []
   /\ snd (handleKeyDown (keys := menuKeyTable) "Tab" freshFlags namelessItem)
      = freshFlags)
  /\ fst (handleKeyDown (keys := menuKeyTable) "Enter" freshFlags namelessItem)
     = [SuperHandleKeyDown (keys := menuKeyTable) "Enter"].
Proof.
  split.
  - apply (proj1 (handleKeyDown_ignores_menu_keys (keys := menuKeyTable)
                    "Tab" freshFlags namelessItem)).
    exists "Tab". split; [simpl; auto | reflexivity].
  - apply (proj2 (handleKeyDown_ignores_menu_keys (keys := menuKeyTable)
                    "Enter" freshFlags namelessItem)).
    intros key Hin. simpl in Hin.
    repeat (destruct Hin as [<- | Hin]; [reflexivity|]). contradiction.
Defined.

(** C7 as stated fails on a reserved key: after [handleKeyDown] on a Tab
    keydown the event's propagation is not stopped (and its default
    action not prevented), so the event is not consumed and goes on to
    the listeners of the menu; the base handler, by contrast, does stop
    the Enter keydown it is handed. *)
Lemma reserved_key_is_not_consumed :
  existsb (fun key => isEventKey (KeyTable := menuKeyTable) "Tab" key)
          (MenuKeys (KeyTable := menuKeyTable)) = true
  /\ propagationStopped
       (snd (handleKeyDown (keys := menuKeyTable) "Tab" freshFlags namelessItem))
     = false
  /\ defaultPrevented
       (snd (handleKeyDown (keys := menuKeyTable) "Tab" freshFlags namelessItem))
     = false
  /\ propagationStopped
       (snd (handleKeyDown (keys := menuKeyTable) "Enter" freshFlags namelessItem))
     = true.
Proof. repeat split; reflexivity. Qed.

(** *** The two parts of a label *)

Lemma label_without_bars label :
  includes "||" label = false ->
  chapterText label = label /\ chapterStartTime label = None.
Proof.
  intros H. unfold chapterText, chapterStartTime, split.
  rewrite (split_from_no_sep _ _ _ H). split; reflexivity.
Qed.

Lemma label_with_bars a rest :
  includes "||" (a ++ "|") = false ->
  chapterText (a ++ "||" ++ rest) = a
  /\ chapterStartTime (a ++ "||" ++ rest) = Some (chapterText rest).
Proof.
  intros H. unfold chapterText, chapterStartTime, split.
  rewrite (split_from_first_bars _ _ _ H). split; [reflexivity|].
  cbn [nth_error append].
  pose proof (split_from_not_nil "||" 0 "" rest) as Hne.
  destruct (split_from "||" 0 "" rest); [congruence | reflexivity].
Qed.

(** C8, as the code has it.  [createEl] takes as primary text the part of
    the label before the first [||], and as secondary text the segment
    between the first [||] and the next one (up to the end of the label
    when there is no other; none at all when the label has no [||]).  A
    label with a name renders the edit affordance, a text span with the
    localised primary text, the control text and, only when the secondary
    text is present and not empty, a last span with the localised
    secondary text; so does ["Intro||00:00:10"], with ["Intro"] and
    ["00:00:10"]. *)
Theorem createEl_renders_the_two_label_parts {player : Player} (options : Options.t) :
  (includes "||" (Options.label options) = false ->
   chapterText (Options.label options) = Options.label options
   /\ chapterStartTime (Options.label options) = None)
  /\ (forall a rest,
        Options.label options = a ++ "||" ++ rest ->
        includes "||" (a ++ "|") = false ->
        chapterText (Options.label options) = a
        /\ chapterStartTime (Options.label options) = Some (chapterText rest))
  /\ (trim (chapterText (Options.label options)) <> "" ->
      createEl options [] []
      = Some (mkRendered
                (Element "li"
                   [("class", "vjs-menu-item"); ("tabindex", "-1"); ("role", "button")] []
                   ([editButton (Options.label options);
                     span "vjs-menu-item-text"
                          (localize (chapterText (Options.label options)));
                     controlTextSpan]
                    ++ match chapterStartTime (Options.label options) with
                       | Some secondary =>
                           if secondary =? "" then []
                           else [span "vjs-menu-item-chapter-starttime"
                                      (localize secondary)]
                       | None => []
                       end)) 2))
  /\ (Options.label options = "Intro||00:00:10" ->
      createEl options [] []
      = Some (mkRendered
                (Element "li"
                   [("class", "vjs-menu-item"); ("tabindex", "-1"); ("role", "button")] []
                   [editButton "Intro||00:00:10";
                    span "vjs-menu-item-text" (localize "Intro");
                    controlTextSpan;
                    span "vjs-menu-item-chapter-starttime" (localize "00:00:10")]) 2)).
Proof.
  split; [apply label_without_bars|].
  split; [intros a rest ->; apply label_with_bars|].
  split.
  - intros Hname. apply isChapterNameEmpty_false_iff in Hname.
    rewrite (createEl_named _ Hname). unfold namedRow, secondarySpans, truthy.
    destruct (chapterStartTime (Options.label options)) as [secondary|]; [|reflexivity].
    destruct (secondary =? ""); reflexivity.
  - intros Hl.
    assert (Hname : isChapterNameEmpty (Options.label options) = false)
      by (rewrite Hl; reflexivity).
    rewrite (createEl_named _ Hname), Hl. reflexivity.
Qed.

Lemma createEl_renders_the_two_label_parts_witness :
  (includes "||" "Outro" = false
   /\ Options.label introOptions = "Intro" ++ "||" ++ "00:00:10"
   /\ includes "||" ("Intro" ++ "|") = false
   /\ trim (chapterText (Options.label introOptions)) <> "")
  /\ chapterText (Options.label introOptions) = "Intro"
  /\ chapterStartTime (Options.label introOptions) = Some (chapterText "00:00:10")
  /\ createEl (player := plainPlayer) introOptions [] []
     = Some (mkRendered
               (Element "li"
                  [("class", "vjs-menu-item"); ("tabindex", "-1"); ("role", "button")] []
                  [editButton "Intro||00:00:10";
                   span "vjs-menu-item-text" "Intro";
                   controlTextSpan;
                   span "vjs-menu-item-chapter-starttime" "00:00:10"]) 2)
  /\ chapterStartTime "Outro" = None.
Proof.
  split; [repeat split; try reflexivity; vm_compute; discriminate|].
  destruct (createEl_renders_the_two_label_parts (player := plainPlayer) introOptions)
    as (_ & Hbars & _ & Hintro).
  destruct (Hbars "Intro" "00:00:10" eq_refl eq_refl) as (Ht & Hs).
  split; [exact Ht|]. split; [exact Hs|]. split; [exact (Hintro eq_refl)|].
  apply (proj1 (createEl_renders_the_two_label_parts (player := plainPlayer)
                  (Options.mk "Outro" true false false))).
  reflexivity.
Defined.

(** C8 as stated fails on a label with two separators: for ["A||B||C"]
    the secondary text is ["B"], not everything after the first [||]
    (["B||C"]), and the span that is rendered shows ["B"]. *)
Lemma secondary_text_stops_at_second_bars :
  chapterText "A||B||C" = "A"
  /\ chapterStartTime "A||B||C" = Some "B"
  /\ chapterStartTime "A||B||C" <> Some "B||C"
  /\ secondarySpans (player := plainPlayer) "A||B||C"
     = [span "vjs-menu-item-chapter-starttime" "B"].
Proof.
  split; [reflexivity|]. split; [reflexivity|].
  split; [vm_compute; discriminate | reflexivity].
Qed.

(** C9.  When the primary part of the label is empty or all white space,
    [createEl] returns the hidden placeholder row and stops: the element
    is exactly what the base class builds for the property map
    [{style: 'display: none;'}], whatever properties and attributes the
    caller passed; it has no listener, no edit affordance, no text span
    and no secondary span. *)
Theorem nameless_label_renders_hidden_placeholder {player : Player}
    (options : Options.t) (props : Props) (attrs : Attrs) :
  allWhiteSpace (chapterText (Options.label options)) = true ->
  createEl options props attrs
  = Some (ClickableComponent.createEl "li" [("style", PStr "display: none;")] [])
  /\ createEl options props attrs = Some (mkRendered placeholderRow 1)
  /\ getAttribute "style" placeholderRow = Some "display: none;"
  /\ listeners_of placeholderRow = []
  /\ childNodes_of placeholderRow = [ClickableComponent.iconPlaceholder; controlTextSpan]
  /\ (forall c,
        In c ["vjs-menu-item-chapter-edit-button"; "vjs-menu-item-text";
              "vjs-menu-item-chapter-starttime"] ->
        existsb (hasClass c) (childNodes_of placeholderRow) = false).
Proof.
  intros H. apply isChapterNameEmpty_true_iff in H.
  rewrite (createEl_placeholder _ props attrs H).
  split; [now rewrite base_placeholder|]. do 4 (split; [reflexivity|]).
  intros c Hc. simpl in Hc.
  repeat (destruct Hc as [<- | Hc]; [reflexivity|]). contradiction.
Qed.

Lemma nameless_label_renders_hidden_placeholder_witness :
  allWhiteSpace (chapterText (Options.label namelessOptions)) = true
  /\ createEl (player := plainPlayer) namelessOptions
       [("className", PStr "vjs-chapter-row")] [("data-index", "3")]
     = Some (mkRendered placeholderRow 1).
Proof.
  split; [reflexivity|].
  apply (nameless_label_renders_hidden_placeholder (player := plainPlayer)
           namelessOptions [("className", PStr "vjs-chapter-row")] [("data-index", "3")]).
  reflexivity.
Defined.

(** C10.  On an item whose label has a name, the edit affordance is the
    first child of the element, as rendered and at any later time; a
    [click] on it, and likewise a [touchstart], runs one listener that
    dispatches one event of type [chapterEditEvent] on [window], carrying
    [{chapter: primaryText}], before it returns; no other event type has
    a listener there. *)
Theorem edit_button_dispatches_chapter_event {player : Player}
    (options : Options.t) (calls : list bool) :
  trim (chapterText (Options.label options)) <> "" ->
  exists r item button rest rest',
    createEl options [] [] = Some r
    /\ childNodes_of (element r) = button :: rest
    /\ lifetime options calls = Some item
    /\ childNodes_of (el_ item) = button :: rest'
    /\ getAttribute "class" button = Some "vjs-menu-item-chapter-edit-button"
    /\ fire "click" button
       = [mkEvent "chapterEditEvent"
                  (Some [("chapter", chapterText (Options.label options))])]
    /\ fire "touchstart" button
       = [mkEvent "chapterEditEvent"
                  (Some [("chapter", chapterText (Options.label options))])]
    /\ (forall other, other <> "click" -> other <> "touchstart" ->
        fire other button = []).
Proof.
  intros Hname. apply isChapterNameEmpty_false_iff in Hname.
  destruct (constructor_named options Hname) as (start & Hc & Hk & Hl & _).
  destruct (selectedCalls_keepsEditButton _ calls _ Hk Hl) as ((_ & Hhd & _) & _).
  destruct (childNodes_of (el_ (selectedCalls calls start))) as [|button rest'] eqn:Hkids;
    [discriminate|].
  inversion Hhd; subst button.
  eexists _, (selectedCalls calls start), (editButton (Options.label options)), _, rest'.
  split; [now apply createEl_named|]. split; [reflexivity|].
  split; [now apply lifetime_eq|]. split; [assumption|].
  do 3 (split; [reflexivity|]).
  intros other H1 H2. unfold fire, editButton. cbn [listeners_of flat_map fst snd].
  apply not_eq_sym, String.eqb_neq in H1. apply not_eq_sym, String.eqb_neq in H2.
  now rewrite H1, H2.
Qed.

Lemma edit_button_dispatches_chapter_event_witness :
  trim (chapterText (Options.label introOptions)) <> ""
  /\ exists item button rest,
       lifetime (player := plainPlayer) introOptions [true] = Some item
       /\ childNodes_of (el_ item) = button :: rest
       /\ fire "click" button
          = [mkEvent "chapterEditEvent" (Some [("chapter", "Intro")])]
       /\ fire "touchstart" button
          = [mkEvent "chapterEditEvent" (Some [("chapter", "Intro")])].
Proof.
  assert (Hname : trim (chapterText (Options.label introOptions)) <> "")
    by (vm_compute; discriminate).
  split; [exact Hname|].
  destruct (edit_button_dispatches_chapter_event (player := plainPlayer)
              introOptions [true] Hname)
    as (r & item & button & rest & rest' & _ & _ & Hl & Hk & _ & Hclick & Htouch & _).
  exists item, button, rest'. repeat split; assumption.
Defined.

(** * Further properties *)

(** ** More on attribute lists, class tokens and children *)
Module DomMore.
Import JsString Dom JsStringFacts DomFacts.
#[local] Arguments Ascii.eqb : simpl never.
#[local] Arguments String.eqb : simpl never.

(** Storing the value an attribute already has changes nothing. *)
Lemma store_present {V} name (v : V) attrs :
  lookup name attrs = Some v -> store name v attrs = attrs.
Proof.
  induction attrs as [|[k w] rest IH]; simpl; [discriminate|].
  destruct (k =? name) eqn:E; intros H.
  - now inversion H.
  - now rewrite IH.
Qed.

Lemma setAttribute_present name v n :
  getAttribute name n = Some v -> setAttribute name v n = n.
Proof.
  destruct n as [|tag attrs ls kids]; [reflexivity|]. simpl; intros H.
  now rewrite store_present.
Qed.

Lemma filter_filter_comm {A} (f g : A -> bool) l :
  filter f (filter g l) = filter g (filter f l).
Proof.
  induction l as [|x l IH]; simpl; [reflexivity|].
  destruct (g x) eqn:Eg, (f x) eqn:Ef; simpl; rewrite ?Eg, ?Ef, IH; reflexivity.
Qed.

Lemma filter_idem {A} (f : A -> bool) l : filter f (filter f l) = filter f l.
Proof.
  induction l as [|x l IH]; simpl; [reflexivity|].
  destruct (f x) eqn:E; simpl; rewrite ?E, IH; reflexivity.
Qed.

Lemma filter_absorb (f : string -> bool) x l :
  f x = false ->
  filter f (filter (fun y => negb (y =? x)) l) = filter f l.
Proof.
  intros Hx; induction l as [|y l IH]; simpl; [reflexivity|].
  destruct (y =? x) eqn:E; simpl.
  - apply String.eqb_eq in E; subst y. now rewrite Hx.
  - now rewrite IH.
Qed.

Lemma dedup_filter (f : string -> bool) l :
  dedup (filter f l) = filter f (dedup l).
Proof.
  induction l as [|x l IH]; simpl; [reflexivity|].
  destruct (f x) eqn:E; simpl; rewrite ?E.
  - now rewrite IH, filter_filter_comm.
  - now rewrite IH, filter_absorb.
Qed.

Lemma dedup_idem l : dedup (dedup l) = dedup l.
Proof.
  induction l as [|x l IH]; simpl; [reflexivity|].
  now rewrite dedup_filter, IH, filter_idem.
Qed.

Lemma filter_all_true {A} (f : A -> bool) l :
  forallb f l = true -> filter f l = l.
Proof.
  induction l as [|x l IH]; simpl; [reflexivity|].
  intros H; apply andb_true_iff in H; destruct H as [Hx Hl].
  now rewrite Hx, IH.
Qed.

Lemma dedup_snoc c l :
  existsb (String.eqb c) l = false -> dedup (l ++ [c]) = (dedup l ++ [c])%list.
Proof.
  induction l as [|x l IH]; simpl; [reflexivity|].
  intros H; apply orb_false_iff in H; destruct H as [Hx Hl].
  rewrite (IH Hl), filter_app. simpl. now rewrite Hx.
Qed.

Lemma classList_idem n : dedup (classList n) = classList n.
Proof.
  unfold classList. destruct (getAttribute "class" n); [apply dedup_idem | reflexivity].
Qed.

(** The class list that [add] serialises parses back to itself. *)
Lemma classList_after_add c n :
  isToken c = true ->
  let ts := classList n in
  let ts' := if existsb (String.eqb c) ts then ts else (ts ++ [c])%list in
  dedup (tokens (String.concat " " ts')) = ts'
  /\ existsb (String.eqb c) ts' = true.
Proof.
  intros Hc ts ts'. subst ts ts'.
  destruct (existsb (String.eqb c) (classList n)) eqn:E.
  - rewrite tokens_concat by apply classList_ok. split; [apply classList_idem | exact E].
  - rewrite tokens_concat
      by (apply Forall_app; split; [apply classList_ok | now constructor]).
    rewrite dedup_snoc by exact E. rewrite classList_idem.
    split; [reflexivity | apply existsb_snoc].
Qed.

(** Adding a class the element already has, in serialised form, changes
    nothing; so adding twice is adding once. *)
Lemma addClass_idem c n :
  isToken c = true -> addClass c (addClass c n) = addClass c n.
Proof.
  intros Hc. destruct n as [|tag attrs ls kids]; [reflexivity|].
  destruct (classList_after_add c (Element tag attrs ls kids) Hc) as [Hd He].
  cbv zeta in Hd, He.
  set (v := String.concat " " _) in *.
  unfold addClass at 1.
  assert (Hcl : classList (addClass c (Element tag attrs ls kids)) =
                (if existsb (String.eqb c) (classList (Element tag attrs ls kids))
                 then classList (Element tag attrs ls kids)
                 else (classList (Element tag attrs ls kids) ++ [c])%list)).
  { unfold classList at 1. unfold addClass.
    rewrite getAttribute_setAttribute_same by reflexivity. exact Hd. }
  rewrite Hcl, He. apply setAttribute_present.
  unfold addClass. now rewrite getAttribute_setAttribute_same.
Qed.

Lemma removeClass_present c n v :
  getAttribute "class" n = Some v ->
  removeClass c n
  = setAttribute "class"
      (String.concat " " (filter (fun t => negb (t =? c)) (classList n))) n.
Proof. intros H; unfold removeClass; now rewrite H. Qed.

Lemma removeClass_absent c n :
  getAttribute "class" n = None -> removeClass c n = n.
Proof. intros H; unfold removeClass; now rewrite H. Qed.

(** Removing twice is removing once. *)
Lemma removeClass_idem c n : removeClass c (removeClass c n) = removeClass c n.
Proof.
  destruct (getAttribute "class" n) as [v|] eqn:E.
  - destruct n as [|tag attrs ls kids]; [discriminate|].
    rewrite (removeClass_present c _ v E).
    set (F := filter _ (classList (Element tag attrs ls kids))).
    set (n1 := setAttribute "class" (String.concat " " F) (Element tag attrs ls kids)).
    assert (Hg : getAttribute "class" n1 = Some (String.concat " " F))
      by (subst n1; now rewrite getAttribute_setAttribute_same).
    assert (Hcl : classList n1 = F).
    { unfold classList at 1. rewrite Hg. subst F.
      rewrite tokens_concat by (apply Forall_filter, classList_ok).
      now rewrite dedup_filter, classList_idem. }
    rewrite (removeClass_present c n1 _ Hg), Hcl.
    replace (filter (fun t => negb (t =? c)) F) with F
      by (subst F; now rewrite filter_idem).
    now apply setAttribute_present.
  - now rewrite !(removeClass_absent c n E).
Qed.

Lemma hasClass_addClass_other c c' n :
  isToken c = true -> c' <> c -> hasClass c' (addClass c n) = hasClass c' n.
Proof.
  intros Hc Hne. destruct n as [|tag attrs ls kids]; [reflexivity|].
  unfold hasClass at 1, addClass.
  rewrite classList_setClass; [|reflexivity|].
  - rewrite existsb_dedup.
    destruct (existsb (String.eqb c) (classList (Element tag attrs ls kids)));
      [reflexivity|].
    rewrite existsb_app. simpl. apply String.eqb_neq in Hne. rewrite Hne.
    now rewrite !orb_false_r.
  - destruct (existsb _ _); [apply classList_ok|].
    apply Forall_app; split; [apply classList_ok | now constructor].
Qed.

Lemma hasClass_removeClass_other c c' n :
  c' <> c -> hasClass c' (removeClass c n) = hasClass c' n.
Proof.
  intros Hne. unfold removeClass.
  destruct (getAttribute "class" n) eqn:E; [|reflexivity].
  destruct n as [|tag attrs ls kids]; [discriminate|].
  unfold hasClass at 1.
  rewrite classList_setClass; [|reflexivity | apply Forall_filter, classList_ok].
  rewrite existsb_dedup. now apply existsb_filter_other.
Qed.

(** *** Children *)

Lemma replaceNth_same {A} i (x : A) l : nth_error l i = Some x -> replaceNth i x l = l.
Proof.
  revert i; induction l as [|y l IH]; intros i; destruct i; simpl; try discriminate.
  - now intros [= ->].
  - intros H. now rewrite IH.
Qed.

Lemma nth_error_replaceNth_other {A} i j (x : A) l :
  j <> i -> nth_error (replaceNth i x l) j = nth_error l j.
Proof.
  revert i j; induction l as [|y l IH]; intros i j Hne; destruct i, j; simpl;
    try reflexivity; try congruence.
  apply IH. congruence.
Qed.

Lemma setTextContent_idem text n :
  setTextContent text (setTextContent text n) = setTextContent text n.
Proof. now destruct n. Qed.

Lemma withChildren_same n : withChildren (childNodes_of n) n = n.
Proof. now destruct n. Qed.

Lemma replaceChild_same node i n :
  nth_error (childNodes_of n) i = Some node -> replaceChild node i n = n.
Proof.
  intros H. unfold replaceChild. rewrite (replaceNth_same _ _ _ H).
  apply withChildren_same.
Qed.

(** *** How the class operations commute with the other updates *)

Lemma store_comm {V} name other (w v : V) attrs :
  name <> other -> lookup name attrs <> None ->
  store name w (store other v attrs) = store other v (store name w attrs).
Proof.
  intros Hne. induction attrs as [|[k x] rest IH]; simpl; [congruence|].
  destruct (k =? name) eqn:E1, (k =? other) eqn:E2; simpl; rewrite ?E1, ?E2; intros H.
  - apply String.eqb_eq in E1, E2. congruence.
  - reflexivity.
  - reflexivity.
  - now rewrite IH.
Qed.

Lemma classList_withChildren kids n : classList (withChildren kids n) = classList n.
Proof. unfold classList. now rewrite getAttribute_withChildren. Qed.

Lemma classList_setAttribute_other name v n :
  name <> "class" -> classList (setAttribute name v n) = classList n.
Proof.
  intros H. unfold classList.
  rewrite getAttribute_setAttribute_other by congruence. reflexivity.
Qed.

Lemma setAttribute_withChildren name v kids n :
  setAttribute name v (withChildren kids n) = withChildren kids (setAttribute name v n).
Proof. now destruct n. Qed.

Lemma setAttribute_comm name other w v n :
  name <> other -> getAttribute name n <> None ->
  setAttribute name w (setAttribute other v n)
  = setAttribute other v (setAttribute name w n).
Proof.
  destruct n as [|tag attrs ls kids]; [reflexivity|]. simpl; intros Hne H.
  now rewrite store_comm.
Qed.

Lemma removeClass_withChildren c kids n :
  removeClass c (withChildren kids n) = withChildren kids (removeClass c n).
Proof.
  unfold removeClass.
  rewrite getAttribute_withChildren, classList_withChildren.
  destruct (getAttribute "class" n); [apply setAttribute_withChildren | reflexivity].
Qed.

Lemma removeClass_setAttribute_other c name v n :
  name <> "class" ->
  removeClass c (setAttribute name v n) = setAttribute name v (removeClass c n).
Proof.
  intros Hne. unfold removeClass.
  rewrite getAttribute_setAttribute_other, classList_setAttribute_other by congruence.
  destruct (getAttribute "class" n) eqn:E; [|reflexivity].
  apply setAttribute_comm; congruence.
Qed.

Lemma addClass_withChildren c kids n :
  addClass c (withChildren kids n) = withChildren kids (addClass c n).
Proof.
  unfold addClass. rewrite classList_withChildren. apply setAttribute_withChildren.
Qed.

Lemma addClass_setAttribute_other c name v n :
  name <> "class" -> getAttribute "class" n <> None ->
  addClass c (setAttribute name v n) = setAttribute name v (addClass c n).
Proof.
  intros Hne H. unfold addClass.
  rewrite classList_setAttribute_other by assumption.
  apply setAttribute_comm; congruence.
Qed.

End DomMore.

(** ** More on the menu item *)
Module MenuItemMore.
Import JsString Dom Base MenuItem Shape Facets.
Import JsStringFacts DomFacts MenuItemFacts DomMore.
#[local] Arguments Ascii.eqb : simpl never.
#[local] Arguments String.eqb : simpl never.

Section More.
Context {player : Player}.

Lemma selectedClass_token : isToken selectedClass = true.
Proof. reflexivity. Qed.

(** A second call that takes the deselect branch again finds nothing
    left to change. *)
Lemma deselect_twice first second item :
  wellFormed item = true ->
  selectable item = true ->
  first && negb (isChapterVariant (el_ item)) = false ->
  second && negb (isChapterVariant (el_ (selected first item))) = false ->
  selected second (selected first item) = selected first item.
Proof.
  intros Hwf Hs H1 H2. pose proof Hwf as Hwf'. apply wellFormed_iff in Hwf'.
  destruct Hwf' as [Hel (node & Hn & He)].
  rewrite (selected_deselect _ _ _ Hs H1 Hn) in *.
  set (new := setTextContent (localize "") node) in *.
  set (el1 := setAttribute "aria-checked" "false" (Dom.removeClass "vjs-selected" (el_ item))) in *.
  assert (Hel1 : isElement el1 = true)
    by (subst el1; now rewrite isElement_setAttribute, isElement_removeClass).
  assert (Hk1 : nth_error (childNodes_of el1) (controlTextEl_ item) = Some node)
    by (subst el1; now rewrite childNodes_setAttribute, childNodes_removeClass).
  pose proof (controlTextEl_patched (options_ item) el1 (controlTextEl_ item) node new
                (Some "") (nonIconControl item) (selectable item) false
                (multiSelectable item) Hel1 Hk1) as Hn1.
  match type of Hn1 with controlTextEl ?it = _ =>
    rewrite (selected_deselect second it new Hs H2 Hn1) end.
  cbn [options_ el_ controlTextEl_ nonIconControl selectable multiSelectable].
  f_equal.
  unfold replaceChild at 2.
  rewrite removeClass_withChildren. subst el1.
  rewrite removeClass_setAttribute_other by discriminate.
  rewrite removeClass_idem.
  set (el1 := setAttribute "aria-checked" "false" _) in *.
  rewrite setAttribute_withChildren.
  rewrite (setAttribute_present "aria-checked" "false" el1)
    by (subst el1; apply getAttribute_setAttribute_same;
        now rewrite isElement_removeClass).
  fold (replaceChild new (controlTextEl_ item) el1).
  apply replaceChild_same.
  unfold controlTextEl in Hn1. cbn [el_ controlTextEl_] in Hn1.
  subst new. now rewrite setTextContent_idem.
Qed.

(** A second call that takes the select branch again finds nothing left
    to change. *)
Lemma select_twice item :
  wellFormed item = true ->
  selectable item = true ->
  isChapterVariant (el_ item) = false ->
  isChapterVariant (el_ (selected true item)) = false ->
  selected true (selected true item) = selected true item.
Proof.
  intros Hwf Hs H1 H2. pose proof Hwf as Hwf'. apply wellFormed_iff in Hwf'.
  destruct Hwf' as [Hel (node & Hn & He)].
  rewrite (selected_select _ _ Hs H1 Hn) in *.
  set (new := setTextContent (localize ", selected") node) in *.
  set (el1 := setAttribute "aria-checked" "true" (Dom.addClass "vjs-selected" (el_ item))) in *.
  assert (Hel1 : isElement el1 = true)
    by (subst el1; now rewrite isElement_setAttribute, isElement_addClass).
  assert (Hk1 : nth_error (childNodes_of el1) (controlTextEl_ item) = Some node)
    by (subst el1; now rewrite childNodes_setAttribute, childNodes_addClass).
  pose proof (controlTextEl_patched (options_ item) el1 (controlTextEl_ item) node new
                (Some ", selected") (nonIconControl item) (selectable item) true
                (multiSelectable item) Hel1 Hk1) as Hn1.
  match type of Hn1 with controlTextEl ?it = _ =>
    rewrite (selected_select it new Hs H2 Hn1) end.
  cbn [options_ el_ controlTextEl_ nonIconControl selectable multiSelectable].
  f_equal.
  unfold replaceChild at 2.
  rewrite addClass_withChildren. subst el1.
  rewrite addClass_setAttribute_other;
    [|discriminate
     |unfold Dom.addClass; rewrite getAttribute_setAttribute_same by assumption;
      discriminate].
  rewrite addClass_idem by reflexivity.
  set (el1 := setAttribute "aria-checked" "true" _) in *.
  rewrite setAttribute_withChildren.
  rewrite (setAttribute_present "aria-checked" "true" el1)
    by (subst el1; apply getAttribute_setAttribute_same;
        now rewrite isElement_addClass).
  fold (replaceChild new (controlTextEl_ item) el1).
  apply replaceChild_same.
  unfold controlTextEl in Hn1. cbn [el_ controlTextEl_] in Hn1.
  subst new. now rewrite setTextContent_idem.
Qed.

(** *** What is known of an item at any point of its life *)

Lemma lifetime_facts options calls item :
  lifetime options calls = Some item ->
  wellFormed item = true
  /\ selectable item = Options.selectable options
  /\ (isChapterNameEmpty (Options.label options) = false ->
      keepsEditButton (Options.label options) item).
Proof.
  intros Hl. destruct (lifetime_inv _ _ _ Hl) as (start & Hc & ->).
  destruct (constructor_returns options) as (start' & Hc' & Hwf & _ & Hs & _).
  rewrite Hc in Hc'; inversion Hc'; subst start'.
  split; [now apply selectedCalls_wellFormed|].
  split; [now rewrite selectedCalls_selectable|].
  intros E. destruct (constructor_named options E) as (start' & Hc'' & Hk & Hu & _).
  rewrite Hc in Hc''; inversion Hc''; subst start'.
  now apply selectedCalls_keepsEditButton.
Qed.

(** *** The facets after a call *)

Lemma selected_inStep wanted item :
  wellFormed item = true -> selectable item = true ->
  inStep (selected wanted item).
Proof.
  intros Hwf Hs. unfold inStep, hintFor.
  destruct (selected_cases wanted item Hwf)
    as [[Hs' _] | [(node & Hn & He & _ & -> & Hm) | (node & Hn & He & _ & Hm)]];
    [congruence| |].
  - destruct (selected_true_enters item Hwf Hs Hm) as (H1 & H2 & H3 & H4 & H5).
    rewrite H5. repeat split; assumption.
  - destruct (selected_leaves wanted item Hwf Hs Hm) as (H1 & H2 & H3 & H4 & H5).
    rewrite H5. repeat split; assumption.
Qed.

Lemma with_role_inStep role item :
  inStep item -> inStep (with_el (setAttribute "role" role (el_ item)) item).
Proof.
  unfold inStep, shownControlText, controlTextEl.
  cbn [el_ with_el isSelected_ controlText_ controlTextEl_].
  rewrite hasClass_setAttribute_other, getAttribute_setAttribute_other,
    childNodes_setAttribute by discriminate.
  auto.
Qed.

Lemma selectedCalls_inStep calls item :
  wellFormed item = true -> selectable item = true -> inStep item ->
  inStep (selectedCalls calls item).
Proof.
  revert item; induction calls as [|b calls IH]; intros item Hwf Hs Hi; [assumption|].
  rewrite selectedCalls_cons. apply IH.
  - now apply selected_wellFormed.
  - now rewrite selected_selectable.
  - now apply selected_inStep.
Qed.

Lemma constructor_inStep options item :
  constructor options = Some item -> Options.selectable options = true ->
  inStep item.
Proof.
  intros Hc Hs. destruct (createEl_returns options) as [r Hr].
  rewrite (constructor_eq _ _ Hr) in Hc. inversion Hc; subst item. cbv zeta.
  apply with_role_inStep, selected_inStep;
    [now apply afterSuper_wellFormed | exact Hs].
Qed.

(** *** The item that is not selectable, as built *)

Lemma constructor_not_selectable options item :
  constructor options = Some item -> Options.selectable options = false ->
  getAttribute "aria-checked" (el_ item) = None
  /\ hasClass selectedClass (el_ item) = false
  /\ controlText_ item = None
  /\ shownControlText item = Some ""
  /\ isSelected_ item = Options.selected options.
Proof.
  intros Hc Hs. destruct (createEl_returns options) as [r Hr].
  rewrite (constructor_eq _ _ Hr) in Hc. inversion Hc; subst item. cbv zeta.
  rewrite selected_not_selectable by exact Hs.
  unfold shownControlText, controlTextEl.
  cbn [el_ with_el controlText_ isSelected_ controlTextEl_ afterSuper].
  rewrite hasClass_setAttribute_other, getAttribute_setAttribute_other,
    childNodes_setAttribute, orb_false_r by discriminate.
  destruct (isChapterNameEmpty (Options.label options)) eqn:E.
  - rewrite (createEl_placeholder _ _ _ E) in Hr. inversion Hr; subst r.
    repeat split; reflexivity.
  - rewrite (createEl_named _ E) in Hr. inversion Hr; subst r.
    repeat split; reflexivity.
Qed.

(** *** What a call leaves alone in the element *)

Lemma selected_element_frame wanted item tag attrs ls kids :
  wellFormed item = true ->
  el_ item = Element tag attrs ls kids ->
  exists attrs' kids',
    el_ (selected wanted item) = Element tag attrs' ls kids'
    /\ List.length kids' = List.length kids
    /\ (forall j, j <> controlTextEl_ item -> nth_error kids' j = nth_error kids j)
    /\ (forall name, name <> "class" -> name <> "aria-checked" ->
        lookup name attrs' = lookup name attrs)
    /\ (exists node text,
          nth_error kids (controlTextEl_ item) = Some node
          /\ (nth_error kids' (controlTextEl_ item) = Some node
              \/ nth_error kids' (controlTextEl_ item)
                 = Some (setTextContent text node))).
Proof.
  intros Hwf Hel.
  pose proof Hwf as Hwf'. apply wellFormed_iff in Hwf'.
  destruct Hwf' as [_ (node0 & Hn0 & _)].
  assert (Hk0 : nth_error kids (controlTextEl_ item) = Some node0)
    by (unfold controlTextEl in Hn0; now rewrite Hel in Hn0).
  destruct (selected_cases wanted item Hwf)
    as [[_ ->] | [(node & Hn & He & Hs & -> & Hm) | (node & Hn & He & Hs & Hm)]].
  - exists attrs, kids. rewrite Hel. do 4 (split; [reflexivity|]).
    exists node0, "". split; [assumption | now left].
  - rewrite (selected_select _ _ Hs Hm Hn). cbn [el_]. rewrite Hel.
    rewrite Hn0 in Hn; inversion Hn; subst node0.
    eexists _, _. split; [reflexivity|].
    split; [apply length_replaceNth|].
    split; [intros j Hj; now apply nth_error_replaceNth_other|].
    split.
    + intros name H1 H2. now rewrite !lookup_store_other by assumption.
    + exists node, (localize ", selected"). split; [assumption|]. right.
      apply nth_error_replaceNth. eapply nth_error_length, Hk0.
  - rewrite (selected_deselect _ _ _ Hs Hm Hn). cbn [el_]. rewrite Hel.
    rewrite Hn0 in Hn; inversion Hn; subst node0.
    unfold Dom.removeClass.
    destruct (getAttribute "class" (Element tag attrs ls kids));
      (eexists _, _; split; [reflexivity|];
       split; [apply length_replaceNth|];
       split; [intros j Hj; now apply nth_error_replaceNth_other|];
       split;
       [intros name H1 H2; now rewrite ?lookup_store_other by assumption
       |exists node, (localize ""); split; [assumption|]; right;
        apply nth_error_replaceNth; eapply nth_error_length, Hk0]).
Qed.

Lemma selected_other_class wanted c item :
  c <> selectedClass ->
  hasClass c (el_ (selected wanted item)) = hasClass c (el_ item).
Proof.
  intros Hc. unfold selected, controlText.
  destruct (selectable item); [|reflexivity].
  destruct (wanted && _);
    match goal with |- context [match ?x with _ => _ end] => destruct x end;
    cbn [el_ with_el with_isSelected with_controlText addClass removeClass];
    unfold replaceChild;
    rewrite ?hasClass_withChildren, ?hasClass_setAttribute_other by discriminate;
    (apply hasClass_addClass_other; [reflexivity | assumption])
    || (now apply hasClass_removeClass_other).
Qed.

(** *** The primary part of a label *)

Lemma split_head_prefix sep cur s :
  exists p, hd "" (split_from sep 0 cur s) = cur ++ p /\ startsWith p s = true.
Proof.
  revert cur; induction s as [|c s IH]; intros cur.
  - exists "". now rewrite append_empty_r.
  - cbn [split_from]. destruct (startsWith sep (String c s)).
    + exists "". now rewrite append_empty_r.
    + destruct (IH (cur ++ String c "")) as (p & Hp & Hs).
      exists (String c p). rewrite Hp, append_assoc. split; [reflexivity|].
      cbn [startsWith append]. now rewrite Ascii.eqb_refl.
Qed.

Lemma includes_prefix_false pat a b :
  includes pat (a ++ b) = false -> includes pat a = false.
Proof.
  intros H. destruct (includes pat a) eqn:E; [|reflexivity].
  now rewrite (includes_app_l _ _ b E) in H.
Qed.

Lemma bars_extend x c c' :
  includes "||" (x ++ String c "") = false ->
  Ascii.eqb "|" c && Ascii.eqb "|" c' = false ->
  includes "||" (x ++ String c (String c' "")) = false.
Proof.
  intros H Hc. induction x as [|d x IH].
  - cbn. rewrite !andb_true_r, !andb_false_r, !orb_false_r. exact Hc.
  - cbn [append includes] in *. apply orb_false_iff in H. destruct H as [H1 H2].
    rewrite (IH H2), orb_false_r.
    destruct x as [|e x]; cbn in *; [|exact H1].
    now rewrite andb_true_r in *.
Qed.

Lemma split_head_no_bars cur s :
  includes "||" (cur ++ match s with String c _ => String c "" | _ => "" end) = false ->
  includes "||" (hd "" (split_from "||" 0 cur s)) = false.
Proof.
  revert cur; induction s as [|c s IH]; intros cur H.
  - now rewrite append_empty_r in H.
  - cbn [split_from]. destruct (startsWith "||" (String c s)) eqn:E.
    + cbn [hd]. eapply includes_prefix_false, H.
    + apply IH. rewrite append_assoc. destruct s as [|c' s].
      * exact H.
      * apply bars_extend; [exact H|].
        cbn in E. now rewrite andb_true_r in E.
Qed.

End More.
End MenuItemMore.

(** ** Further properties of the class *)

Import Facets DomMore MenuItemMore.

(** X1.  On a selectable item, [selected(false)] enters the deselected
    state: the class [vjs-selected] is gone, [aria-checked] is ["false"],
    the control text is empty and the flag is false, whatever the state
    before and whether or not the markup carries the chapter marker. *)
Theorem selected_false_enters_deselected_state {player : Player}
    (options : Options.t) (calls : list bool) (item : MenuItem.t) :
  lifetime options calls = Some item ->
  selectable item = true ->
  hasClass "vjs-selected" (el_ (selected false item)) = false
  /\ getAttribute "aria-checked" (el_ (selected false item)) = Some "false"
  /\ controlText_ (selected false item) = Some ""
  /\ shownControlText (selected false item) = Some (localize "")
  /\ isSelected_ (selected false item) = false.
Proof.
  intros Hl Hs. destruct (lifetime_facts _ _ _ Hl) as (Hwf & _).
  now apply selected_leaves.
Qed.

Lemma selected_false_enters_deselected_state_witness :
  (lifetime (player := plainPlayer) namelessOptions [true] = Some clickedNamelessItem
   /\ selectable clickedNamelessItem = true
   /\ hasClass "vjs-selected" (el_ clickedNamelessItem) = true)
  /\ hasClass "vjs-selected"
       (el_ (selected (player := plainPlayer) false clickedNamelessItem)) = false
  /\ isSelected_ (selected (player := plainPlayer) false clickedNamelessItem) = false.
Proof.
  split; [repeat split; vm_compute; reflexivity|].
  destruct (selected_false_enters_deselected_state (player := plainPlayer)
              namelessOptions [true] clickedNamelessItem)
    as (Hc & _ & _ & _ & Hf); [vm_compute; reflexivity..|].
  split; assumption.
Defined.

(** X2.  On a selectable item the three rendered facets always agree with
    the flag: after construction and after every call, the class
    [vjs-selected] is present exactly when [isSelected_] is true,
    [aria-checked] spells the flag, and the control text is
    [", selected"] or empty accordingly. *)
Theorem facets_agree_with_flag {player : Player}
    (options : Options.t) (calls : list bool) (item : MenuItem.t) :
  lifetime options calls = Some item ->
  Options.selectable options = true ->
  hasClass "vjs-selected" (el_ item) = isSelected_ item
  /\ getAttribute "aria-checked" (el_ item)
     = Some (if isSelected_ item then "true" else "false")
  /\ controlText_ item = Some (if isSelected_ item then ", selected" else "")
  /\ shownControlText item
     = Some (localize (if isSelected_ item then ", selected" else "")).
Proof.
  intros Hl Hs. destruct (lifetime_inv _ _ _ Hl) as (start & Hc & ->).
  destruct (constructor_returns options) as (start' & Hc' & Hwf & _ & Hsel & _).
  rewrite Hc in Hc'; inversion Hc'; subst start'.
  apply (selectedCalls_inStep calls start Hwf); [congruence|].
  now apply (constructor_inStep options).
Qed.

Lemma facets_agree_with_flag_witness :
  (lifetime (player := plainPlayer) namelessOptions [true] = Some clickedNamelessItem
   /\ Options.selectable namelessOptions = true)
  /\ isSelected_ clickedNamelessItem = true
  /\ hasClass "vjs-selected" (el_ clickedNamelessItem) = isSelected_ clickedNamelessItem
  /\ getAttribute "aria-checked" (el_ clickedNamelessItem) = Some "true".
Proof.
  split; [split; vm_compute; reflexivity|].
  split; [reflexivity|].
  destruct (facets_agree_with_flag (player := plainPlayer)
              namelessOptions [true] clickedNamelessItem)
    as (Hc & Ha & _); [vm_compute; reflexivity..|].
  split; [exact Hc | exact Ha].
Defined.

(** X3.  An item that is not selectable never carries selection markup:
    throughout its life it has no [aria-checked] attribute and no
    [vjs-selected] class, its control text was never set, and its flag is
    the configured [selected] value, rendered or not. *)
Theorem not_selectable_item_has_no_selection_markup {player : Player}
    (options : Options.t) (calls : list bool) (item : MenuItem.t) :
  lifetime options calls = Some item ->
  Options.selectable options = false ->
  getAttribute "aria-checked" (el_ item) = None
  /\ hasClass "vjs-selected" (el_ item) = false
  /\ controlText_ item = None
  /\ shownControlText item = Some ""
  /\ isSelected_ item = Options.selected options.
Proof.
  intros Hl Hs. destruct (lifetime_inv _ _ _ Hl) as (start & Hc & ->).
  destruct (constructor_returns options) as (start' & Hc' & _ & _ & Hsel & _).
  rewrite Hc in Hc'; inversion Hc'; subst start'.
  rewrite selectedCalls_not_selectable by congruence.
  now apply (constructor_not_selectable options).
Qed.

Lemma not_selectable_item_has_no_selection_markup_witness :
  (lifetime (player := plainPlayer) fixedIntroOptions [true; true] = Some fixedIntroItem
   /\ Options.selectable fixedIntroOptions = false)
  /\ getAttribute "aria-checked" (el_ fixedIntroItem) = None
  /\ isSelected_ fixedIntroItem = true.
Proof.
  split; [split; vm_compute; reflexivity|].
  destruct (not_selectable_item_has_no_selection_markup (player := plainPlayer)
              fixedIntroOptions [true; true] fixedIntroItem)
    as (Ha & _ & _ & _ & Hf); [vm_compute; reflexivity..|].
  split; [exact Ha | exact Hf].
Defined.

(** X4.  A call to [selected] rewrites nothing but its facets: the
    element keeps its tag, its listeners and the number of its children;
    every attribute other than [class] and [aria-checked] keeps its value;
    every child other than the control-text element is untouched, and that
    one changes in its text at most; the options, the flags [selectable]
    and [multiSelectable] and the control-text reference stay as they
    are. *)
Theorem selected_touches_only_its_facets {player : Player}
    (options : Options.t) (calls : list bool) (item : MenuItem.t) (wanted : bool)
    (tag : string) (attrs : list (string * string))
    (ls : list (string * Listener)) (kids : list Node) :
  lifetime options calls = Some item ->
  el_ item = Element tag attrs ls kids ->
  (exists attrs' kids',
     el_ (selected wanted item) = Element tag attrs' ls kids'
     /\ List.length kids' = List.length kids
     /\ (forall j, j <> controlTextEl_ item -> nth_error kids' j = nth_error kids j)
     /\ (forall name, name <> "class" -> name <> "aria-checked" ->
         lookup name attrs' = lookup name attrs)
     /\ (exists node text,
           nth_error kids (controlTextEl_ item) = Some node
           /\ (nth_error kids' (controlTextEl_ item) = Some node
               \/ nth_error kids' (controlTextEl_ item)
                  = Some (setTextContent text node))))
  /\ options_ (selected wanted item) = options_ item
  /\ controlTextEl_ (selected wanted item) = controlTextEl_ item
  /\ selectable (selected wanted item) = selectable item
  /\ multiSelectable (selected wanted item) = multiSelectable item.
Proof.
  intros Hl Hel. destruct (lifetime_facts _ _ _ Hl) as (Hwf & _).
  split; [now apply selected_element_frame | apply selected_fields].
Qed.

Lemma selected_touches_only_its_facets_witness :
  lifetime (player := plainPlayer) introOptions [] = Some introItem
  /\ exists tag attrs ls kids attrs' kids',
       el_ introItem = Element tag attrs ls kids
       /\ el_ (selected (player := plainPlayer) true introItem)
          = Element tag attrs' ls kids'
       /\ List.length kids' = List.length kids
       /\ lookup "role" attrs' = lookup "role" attrs.
Proof.
  split; [vm_compute; reflexivity|].
  assert (Hel : exists tag attrs ls kids, el_ introItem = Element tag attrs ls kids)
    by (unfold introItem; cbn [el_]; eauto).
  destruct Hel as (tag & attrs & ls & kids & Hel).
  destruct (selected_touches_only_its_facets (player := plainPlayer)
              introOptions [] introItem true tag attrs ls kids)
    as ((attrs' & kids' & He & Hn & _ & Ha & _) & _);
    [vm_compute; reflexivity | exact Hel |].
  exists tag, attrs, ls, kids, attrs', kids'.
  split; [exact Hel|]. split; [exact He|]. split; [exact Hn|].
  apply Ha; discriminate.
Defined.

(** X5.  [selected] adds and removes no class but [vjs-selected]: any
    other class is on the element after the call exactly when it was
    before. *)
Theorem selected_keeps_other_classes {player : Player}
    (item : MenuItem.t) (wanted : bool) (c : string) :
  c <> "vjs-selected" ->
  hasClass c (el_ (selected wanted item)) = hasClass c (el_ item).
Proof. apply selected_other_class. Qed.

Lemma selected_keeps_other_classes_witness :
  "vjs-menu-item" <> "vjs-selected"
  /\ hasClass "vjs-menu-item" (el_ (selected (player := plainPlayer) false introItem))
     = true.
Proof.
  assert (H : "vjs-menu-item" <> "vjs-selected") by discriminate.
  split; [exact H|].
  rewrite (selected_keeps_other_classes (player := plainPlayer)
             introItem false "vjs-menu-item" H).
  vm_compute. reflexivity.
Defined.

(** X6.  A click ([handleClick]) on a selectable item ends selected
    exactly when the markup did not contain the chapter marker at the
    time of the click; the class and [aria-checked] follow. *)
Theorem click_selects_unless_marked {player : Player}
    (options : Options.t) (calls : list bool) (item : MenuItem.t) :
  lifetime options calls = Some item ->
  selectable item = true ->
  isSelected_ (handleClick item)
  = negb (includes "-chapter-" (outerHTML (el_ item)))
  /\ hasClass "vjs-selected" (el_ (handleClick item))
     = negb (includes "-chapter-" (outerHTML (el_ item)))
  /\ getAttribute "aria-checked" (el_ (handleClick item))
     = Some (if includes "-chapter-" (outerHTML (el_ item)) then "false" else "true").
Proof.
  intros Hl Hs. destruct (lifetime_facts _ _ _ Hl) as (Hwf & _).
  unfold handleClick.
  destruct (includes "-chapter-" (outerHTML (el_ item))) eqn:Hm.
  - destruct (selected_leaves true item Hwf Hs) as (Hc & Ha & _ & _ & Hf).
    + unfold isChapterVariant, marker. now rewrite Hm.
    + repeat split; assumption.
  - destruct (selected_true_enters item Hwf Hs Hm) as (Hc & Ha & _ & _ & Hf).
    repeat split; assumption.
Qed.

Lemma click_selects_unless_marked_witness :
  (lifetime (player := plainPlayer) introOptions [] = Some introItem
   /\ selectable introItem = true)
  /\ includes "-chapter-" (outerHTML (el_ introItem)) = true
  /\ isSelected_ (handleClick (player := plainPlayer) introItem) = false.
Proof.
  split; [split; vm_compute; reflexivity|].
  assert (Hm : includes "-chapter-" (outerHTML (el_ introItem)) = true)
    by (vm_compute; reflexivity).
  split; [exact Hm|].
  destruct (click_selects_unless_marked (player := plainPlayer)
              introOptions [] introItem) as (Hf & _); [vm_compute; reflexivity..|].
  rewrite Hf, Hm. reflexivity.
Defined.

(** X7.  Deselecting twice is deselecting once: after [selected(false)]
    a second [selected(false)] leaves the instance, element included,
    exactly as it is. *)
Theorem deselecting_twice_is_deselecting_once {player : Player}
    (options : Options.t) (calls : list bool) (item : MenuItem.t) :
  lifetime options calls = Some item ->
  selected false (selected false item) = selected false item.
Proof.
  intros Hl. destruct (lifetime_facts _ _ _ Hl) as (Hwf & _).
  destruct (selectable item) eqn:Hs.
  - apply deselect_twice; [assumption | assumption | reflexivity | reflexivity].
  - now rewrite !(selected_not_selectable false item Hs).
Qed.

Lemma deselecting_twice_is_deselecting_once_witness :
  lifetime (player := plainPlayer) namelessOptions [true] = Some clickedNamelessItem
  /\ selected (player := plainPlayer) false
       (selected (player := plainPlayer) false clickedNamelessItem)
     = selected (player := plainPlayer) false clickedNamelessItem.
Proof.
  split; [vm_compute; reflexivity|].
  apply (deselecting_twice_is_deselecting_once (player := plainPlayer)
           namelessOptions [true] clickedNamelessItem).
  vm_compute. reflexivity.
Defined.

(** X8.  On an item whose label has a name, a call changes nothing that
    the call before it left: whatever the two arguments,
    [selected(second)] after [selected(first)] gives the instance that
    [selected(first)] gave. *)
Theorem named_item_calls_collapse {player : Player}
    (options : Options.t) (calls : list bool) (item : MenuItem.t)
    (first second : bool) :
  trim (chapterText (Options.label options)) <> "" ->
  lifetime options calls = Some item ->
  selected second (selected first item) = selected first item.
Proof.
  intros Hname Hl. apply isChapterNameEmpty_false_iff in Hname.
  destruct (lifetime_facts _ _ _ Hl) as (Hwf & _ & Hk). specialize (Hk Hname).
  destruct (selectable item) eqn:Hs.
  - apply deselect_twice; try assumption.
    + now apply (keepsEditButton_guard (Options.label options)).
    + apply (keepsEditButton_guard (Options.label options)).
      now apply selected_keepsEditButton.
  - rewrite (selected_not_selectable first item Hs).
    now rewrite (selected_not_selectable second item Hs).
Qed.

Lemma named_item_calls_collapse_witness :
  (trim (chapterText (Options.label introOptions)) <> ""
   /\ lifetime (player := plainPlayer) introOptions [] = Some introItem)
  /\ selected (player := plainPlayer) true
       (selected (player := plainPlayer) false introItem)
     = selected (player := plainPlayer) false introItem.
Proof.
  assert (Hname : trim (chapterText (Options.label introOptions)) <> "")
    by (vm_compute; discriminate).
  split; [split; [exact Hname | vm_compute; reflexivity]|].
  apply (named_item_calls_collapse (player := plainPlayer)
           introOptions [] introItem false true Hname).
  vm_compute. reflexivity.
Defined.

(** X9.  Clicking twice is clicking once, as long as the first click does
    not change whether the markup contains the chapter marker: the second
    [handleClick] then leaves the instance exactly as the first left
    it. *)
Theorem clicking_twice_is_clicking_once {player : Player}
    (options : Options.t) (calls : list bool) (item : MenuItem.t) :
  lifetime options calls = Some item ->
  includes "-chapter-" (outerHTML (el_ (handleClick item)))
  = includes "-chapter-" (outerHTML (el_ item)) ->
  handleClick (handleClick item) = handleClick item.
Proof.
  intros Hl Hsame. destruct (lifetime_facts _ _ _ Hl) as (Hwf & _).
  unfold handleClick in *.
  destruct (selectable item) eqn:Hs;
    [|now rewrite !(selected_not_selectable true item Hs)].
  destruct (includes "-chapter-" (outerHTML (el_ item))) eqn:Hm.
  - apply deselect_twice; try assumption;
      unfold isChapterVariant, marker; rewrite ?Hsame, ?Hm; reflexivity.
  - now apply select_twice.
Qed.

Lemma clicking_twice_is_clicking_once_witness :
  (lifetime (player := plainPlayer) namelessOptions [] = Some namelessItem
   /\ includes "-chapter-"
        (outerHTML (el_ (handleClick (player := plainPlayer) namelessItem)))
      = includes "-chapter-" (outerHTML (el_ namelessItem)))
  /\ handleClick (player := plainPlayer) (handleClick (player := plainPlayer) namelessItem)
     = clickedNamelessItem.
Proof.
  split; [split; vm_compute; reflexivity|].
  rewrite (clicking_twice_is_clicking_once (player := plainPlayer)
             namelessOptions [] namelessItem); vm_compute; reflexivity.
Defined.

(** The condition of X9 is needed: when the localised hint itself
    contains the marker, the first click selects the nameless item and
    the second one deselects it. *)
Lemma second_click_can_deselect :
  isSelected_ (handleClick (player := oddPlayer) namelessItem) = true
  /\ isSelected_ (handleClick (player := oddPlayer)
                    (handleClick (player := oddPlayer) namelessItem)) = false.
Proof. split; vm_compute; reflexivity. Qed.

(** X11.  The primary text [createEl] takes from a label is a prefix of
    the label and never contains the separator [||]. *)
Theorem primary_text_is_a_separator_free_prefix (label : string) :
  startsWith (chapterText label) label = true
  /\ includes "||" (chapterText label) = false.
Proof.
  unfold chapterText, split. split.
  - destruct (split_head_prefix "||" "" label) as (p & Hp & Hs).
    rewrite Hp. exact Hs.
  - apply split_head_no_bars. destruct label as [|c label]; [reflexivity|].
    cbn. now rewrite andb_false_r.
Qed.
